(** * A radial countdown timer: the engine of [timer.ts]

    The repository holds one engine in two mountings: [src/timer.ts] (a
    customized built-in [canvas] element) and a second file in which the
    engine wraps a canvas it is handed.  Both are embedded here by one set of
    definitions, with the mounting as a parameter where the two differ.

    A JavaScript [number] is embedded behind an interface, [Number], so that
    the engine is written once and read under three arithmetics:
    - [R], exact real arithmetic, the reading under which the
      specification states its properties;
    - [option R], exact reals extended with [NaN] (the value arithmetic
      produces from a missing coordinate);
    - [float], IEEE-754 binary64, the arithmetic the program runs on. *)

From Stdlib Require Import ZArith Reals Lra Lia List Bool Floats.
From stdpp Require Import base gmap.
Import ListNotations.

Set Default Proof Using "Type".

(** ** Numbers *)

(** The operations of [number] the engine uses.  [lit] is an integer
    literal, [neg] the unary minus; [neq] is [!=] (and [!==], the same on
    two numbers). *)
Class Number (num : Type) := {
  lit : Z -> num;
  neg : num -> num;
  add : num -> num -> num;
  sub : num -> num -> num;
  mul : num -> num -> num;
  div : num -> num -> num;
  lt : num -> num -> bool;
  neq : num -> num -> bool;
  Math_PI : num
}.

(** The built-ins of the platform the engine calls: [Math.atan2],
    [Math.cos], [Math.sin] and the remainder operator [%]. *)
Class MathLib (num : Type) := {
  Math_atan2 : num -> num -> num;
  Math_cos : num -> num;
  Math_sin : num -> num;
  rem : num -> num -> num
}.

Declare Scope num_scope.
Delimit Scope num_scope with num.
Notation "- a" := (neg a) : num_scope.
Notation "a + b" := (add a b) : num_scope.
Notation "a - b" := (sub a b) : num_scope.
Notation "a * b" := (mul a b) : num_scope.
Notation "a / b" := (div a b) : num_scope.
Notation "a <? b" := (lt a b) : num_scope.
Notation "a % b" := (rem a b) (at level 40, left associativity) : num_scope.

(** A decimal literal such as [0.81] is the quotient of two integer
    literals: exactly so in real arithmetic, and in binary64 too, where the
    division rounds to the double nearest to 81/100, which is the value the
    literal denotes. *)
Definition frac {num} `{Number num} (a b : Z) : num := (lit a / lit b)%num.

(** *** Exact reals *)

Definition Rltb (a b : R) : bool := if Rlt_dec a b then true else false.
Definition Rneqb (a b : R) : bool := if Req_dec_T a b then false else true.

(** [x % y] truncates the quotient toward zero. *)
Definition Rtrunc (r : R) : Z := if Rle_dec 0 r then Zfloor r else Zceil r.
Definition Rrem (x y : R) : R := (x - y * IZR (Rtrunc (x / y)))%R.

(** [Math.atan2 y x]: the angle of the point (x, y), in (-PI, PI]. *)
Definition Ratan2 (y x : R) : R :=
  if Rlt_dec 0 x then atan (y / x)
  else if Rlt_dec x 0 then
    (if Rle_dec 0 y then atan (y / x) + PI else atan (y / x) - PI)%R
  else if Rlt_dec 0 y then (PI / 2)%R
  else if Rlt_dec y 0 then (- (PI / 2))%R
  else 0%R.

#[export] Instance R_Number : Number R := {|
  lit := IZR; neg := Ropp; add := Rplus; sub := Rminus; mul := Rmult; div := Rdiv;
  lt := Rltb; neq := Rneqb; Math_PI := PI
|}.

#[export] Instance R_MathLib : MathLib R := {|
  Math_atan2 := Ratan2; Math_cos := cos; Math_sin := sin; rem := Rrem
|}.

(** *** Reals with NaN

    [None] is [NaN]: every operation with a [NaN] operand yields [NaN], and
    every comparison with one is false, except [!=], which is true.  The
    engine divides only by nonzero literals and takes remainders only by
    [2 * Math.PI], so no finite operands of it produce a non-finite
    result. *)
Definition lift2 {A} (f : A -> A -> A) (a b : option A) : option A :=
  match a, b with
  | Some x, Some y => Some (f x y)
  | _, _ => None
  end.

Definition test2 {A} (nan : bool) (f : A -> A -> bool) (a b : option A) : bool :=
  match a, b with
  | Some x, Some y => f x y
  | _, _ => nan
  end.

#[export] Instance NaN_Number : Number (option R) := {|
  lit z := Some (IZR z); neg := option_map Ropp;
  add := lift2 Rplus; sub := lift2 Rminus; mul := lift2 Rmult;
  div := lift2 Rdiv;
  lt := test2 false Rltb; neq := test2 true Rneqb;
  Math_PI := Some PI
|}.

#[export] Instance NaN_MathLib : MathLib (option R) := {|
  Math_atan2 := lift2 Ratan2;
  Math_cos := option_map cos; Math_sin := option_map sin;
  rem := lift2 Rrem
|}.

(** *** IEEE-754 binary64

    The arithmetic of the kernel's primitive floats is that of a JavaScript
    [number]. [Math.PI] is the double nearest to PI. *)
Definition float_lit (z : Z) : float :=
  SF2Prim (binary_normalize prec emax z 0 false).

#[export] Instance float_Number : Number float := {|
  lit := float_lit; neg := PrimFloat.opp;
  add := PrimFloat.add; sub := PrimFloat.sub; mul := PrimFloat.mul;
  div := PrimFloat.div;
  lt := PrimFloat.ltb; neq a b := negb (PrimFloat.eqb a b);
  Math_PI := 0x1.921fb54442d18p+1%float
|}.

(** ** Outcomes of running a piece of the program *)

Inductive exn := Error_no_2d_context | TypeError.

(** A [while] loop is run with fuel; [Timeout] is fuel running out. *)
Inductive result (A : Type) :=
| Ok (a : A)
| Throw (e : exn)
| Timeout.
Arguments Ok {A} a.
Arguments Throw {A} e.
Arguments Timeout {A}.

Definition bind {A B} (r : result A) (k : A -> result B) : result B :=
  match r with
  | Ok a => k a
  | Throw e => Throw e
  | Timeout => Timeout
  end.

Notation "'let*' x ':=' r 'in' k" := (bind r (fun x => k))
  (at level 10, x pattern, r at level 100, k at level 200).

(** ** Coordinate *)

Module Coordinate.
Section Ops.
Context {num : Type} `{Number num}.
Local Open Scope num_scope.

Record t := mk { x : num; y : num }.

Definition scale (n : num) (c : t) : t :=
  {| x := x c * n; y := y c * n |}.

(** [translate(n_x, y?)]: with [y] undefined both components move by
    [n_x]. *)
Definition translate (n_x : num) (y' : option num) (c : t) : t :=
  {| x := x c + n_x;
     y := match y' with None => y c + n_x | Some d => y c + d end |}.

(** Scales from a range of [-1, 1] to [0, max]. *)
Definition expand_to (max : num) (c : t) : t :=
  scale (frac 1 2 * max) (translate (lit 1) None c).
End Ops.
Arguments t num : clear implicits.
End Coordinate.

(** ** The canvas context *)

Inductive Color := black | red | white.

(** One call on the 2-d drawing context, or one assignment to a property
    of it.  The text of [FillText] is the decimal numeral of its integer. *)
Inductive DrawOp (num : Type) :=
| ClearRect (x y w h : num)
| BeginPath
| ClosePath
| MoveTo (x y : num)
| LineTo (x y : num)
| Arc (x y radius start_angle end_angle : num)
| Fill
| Stroke
| FillStyle (c : Color)
| LineWidth (w : num)
| TextAlign_center
| TextBaseline_middle
| Font_px_monospace (size : num)
| FillText (text : Z) (x y : num).
Arguments ClearRect {num}.
Arguments BeginPath {num}.
Arguments ClosePath {num}.
Arguments MoveTo {num}.
Arguments LineTo {num}.
Arguments Arc {num}.
Arguments Fill {num}.
Arguments Stroke {num}.
Arguments FillStyle {num}.
Arguments LineWidth {num}.
Arguments TextAlign_center {num}.
Arguments TextBaseline_middle {num}.
Arguments Font_px_monospace {num}.
Arguments FillText {num}.

(** ** The engine's state *)

(** The fields of [TimerCanvas], with the four dimensions of the canvas
    it draws on ([this.width] in one mounting, [this.canvas.width] in the
    other). *)
Record TimerCanvas (num : Type) := {
  width : num;
  height : num;
  clientWidth : num;
  clientHeight : num;
  center : Coordinate.t num;
  needs_full_render : bool;
  animation_timer : option nat;
  prev_render_ms : num;
  remaining_seconds : num;
  time_radians : num;
  drag_starting_angle : option num;
  drag_starting_remaining_seconds : option num
}.
Arguments width {num}.
Arguments height {num}.
Arguments clientWidth {num}.
Arguments clientHeight {num}.
Arguments center {num}.
Arguments needs_full_render {num}.
Arguments animation_timer {num}.
Arguments prev_render_ms {num}.
Arguments remaining_seconds {num}.
Arguments time_radians {num}.
Arguments drag_starting_angle {num}.
Arguments drag_starting_remaining_seconds {num}.

(** What the engine reaches of the browser: the intervals it has scheduled
    that are still active, the next timer id, the calls made on the drawing
    context so far, and which of its listeners are attached. *)
Record Browser (num : Type) := {
  timers : gset nat;
  next_timer : nat;
  drawn : list (DrawOp num);
  listening : bool;
  mousemove_on : bool;
  touchmove_on : bool
}.
Arguments timers {num}.
Arguments next_timer {num}.
Arguments drawn {num}.
Arguments listening {num}.
Arguments mousemove_on {num}.
Arguments touchmove_on {num}.

(** A [MouseEvent] or [Touch], with the corner of its target's bounding
    rectangle. *)
Record PointerEvent (num : Type) := {
  pageX : num;
  pageY : num;
  rect_left : num;
  rect_top : num
}.
Arguments pageX {num}.
Arguments pageY {num}.
Arguments rect_left {num}.
Arguments rect_top {num}.

(** The two mountings of the engine. *)
Inductive Mounting :=
| CustomElement  (* timer.ts: class TimerCanvas extends HTMLCanvasElement *)
| Wrapper.       (* the second file: class TimerCanvas { canvas } *)

(** ** The engine *)

Section Engine.
Context {num : Type} `{Number num} `{MathLib num}.
Local Open Scope num_scope.

Abbreviation State := (TimerCanvas num).
Abbreviation World := (Browser num).
Abbreviation Ops := (list (DrawOp num)).

(** *** Field updates *)

Definition with_resolution (w h : num) (c : Coordinate.t num) (st : State) : State :=
  {| width := w; height := h;
     clientWidth := clientWidth st; clientHeight := clientHeight st;
     center := c; needs_full_render := true;
     animation_timer := animation_timer st;
     prev_render_ms := prev_render_ms st;
     remaining_seconds := remaining_seconds st;
     time_radians := time_radians st;
     drag_starting_angle := drag_starting_angle st;
     drag_starting_remaining_seconds := drag_starting_remaining_seconds st |}.

Definition with_needs_full_render (b : bool) (st : State) : State :=
  {| width := width st; height := height st;
     clientWidth := clientWidth st; clientHeight := clientHeight st;
     center := center st; needs_full_render := b;
     animation_timer := animation_timer st;
     prev_render_ms := prev_render_ms st;
     remaining_seconds := remaining_seconds st;
     time_radians := time_radians st;
     drag_starting_angle := drag_starting_angle st;
     drag_starting_remaining_seconds := drag_starting_remaining_seconds st |}.

Definition with_animation_timer (id : option nat) (st : State) : State :=
  {| width := width st; height := height st;
     clientWidth := clientWidth st; clientHeight := clientHeight st;
     center := center st; needs_full_render := needs_full_render st;
     animation_timer := id;
     prev_render_ms := prev_render_ms st;
     remaining_seconds := remaining_seconds st;
     time_radians := time_radians st;
     drag_starting_angle := drag_starting_angle st;
     drag_starting_remaining_seconds := drag_starting_remaining_seconds st |}.

Definition with_prev_render_ms (ms : num) (st : State) : State :=
  {| width := width st; height := height st;
     clientWidth := clientWidth st; clientHeight := clientHeight st;
     center := center st; needs_full_render := needs_full_render st;
     animation_timer := animation_timer st;
     prev_render_ms := ms;
     remaining_seconds := remaining_seconds st;
     time_radians := time_radians st;
     drag_starting_angle := drag_starting_angle st;
     drag_starting_remaining_seconds := drag_starting_remaining_seconds st |}.

Definition with_time (secs rads : num) (st : State) : State :=
  {| width := width st; height := height st;
     clientWidth := clientWidth st; clientHeight := clientHeight st;
     center := center st; needs_full_render := needs_full_render st;
     animation_timer := animation_timer st;
     prev_render_ms := prev_render_ms st;
     remaining_seconds := secs;
     time_radians := rads;
     drag_starting_angle := drag_starting_angle st;
     drag_starting_remaining_seconds := drag_starting_remaining_seconds st |}.

Definition with_drag (angle secs : option num) (st : State) : State :=
  {| width := width st; height := height st;
     clientWidth := clientWidth st; clientHeight := clientHeight st;
     center := center st; needs_full_render := needs_full_render st;
     animation_timer := animation_timer st;
     prev_render_ms := prev_render_ms st;
     remaining_seconds := remaining_seconds st;
     time_radians := time_radians st;
     drag_starting_angle := angle;
     drag_starting_remaining_seconds := secs |}.

(** The layout gives the canvas a new client size. *)
Definition with_client_size (w h : num) (st : State) : State :=
  {| width := width st; height := height st;
     clientWidth := w; clientHeight := h;
     center := center st; needs_full_render := needs_full_render st;
     animation_timer := animation_timer st;
     prev_render_ms := prev_render_ms st;
     remaining_seconds := remaining_seconds st;
     time_radians := time_radians st;
     drag_starting_angle := drag_starting_angle st;
     drag_starting_remaining_seconds := drag_starting_remaining_seconds st |}.

Definition draw (ops : Ops) (w : World) : World :=
  {| timers := timers w; next_timer := next_timer w;
     drawn := drawn w ++ ops;
     listening := listening w;
     mousemove_on := mousemove_on w; touchmove_on := touchmove_on w |}.

Definition with_timers (ts : gset nat) (next : nat) (w : World) : World :=
  {| timers := ts; next_timer := next;
     drawn := drawn w;
     listening := listening w;
     mousemove_on := mousemove_on w; touchmove_on := touchmove_on w |}.

Definition with_listeners (l mm tm : bool) (w : World) : World :=
  {| timers := timers w; next_timer := next_timer w;
     drawn := drawn w;
     listening := l; mousemove_on := mm; touchmove_on := tm |}.

(** *** Seconds and radians *)

Definition seconds_to_radians (secs : num) : num :=
  ((secs / lit 60) * Math_PI) / lit 30.

(** 2 PI radians is 60 mins; 1 radian is 60 mins / 2 PI. *)
Definition radians_to_seconds (rads : num) : num :=
  rads * (lit 60 / (lit 2 * Math_PI)) * lit 60.

(** [while (s < 0) { s += 60 * 60; }]: add hours until it's positive to
    deal with zero crossings. *)
Fixpoint add_hours (fuel : nat) (s : num) : result num :=
  match fuel with
  | O => Timeout
  | S fuel' =>
      if s <? lit 0 then add_hours fuel' (s + lit 60 * lit 60) else Ok s
  end.

Definition set_remaining_seconds (fuel : nat) (s : num) (st : State) : result State :=
  let* s' := add_hours fuel s in
  Ok (with_time s' (seconds_to_radians s') st).

(** [constructor]: [context] tells whether [getContext("2d")] gave a
    context; the canvas comes with its dimensions. *)
Definition constructor (context : bool) (now : num) (w h cw ch : num) : result State :=
  if context then
    Ok {| width := w; height := h; clientWidth := cw; clientHeight := ch;
          center := Coordinate.mk (lit 0) (lit 0);
          needs_full_render := true;
          animation_timer := None;
          prev_render_ms := now;
          remaining_seconds := lit 2 * lit 60;
          time_radians := seconds_to_radians (lit 2 * lit 60);
          drag_starting_angle := None;
          drag_starting_remaining_seconds := None |}
  else Throw Error_no_2d_context.

(** *** Rendering *)

Definition setup_resolution (st : State) : State * Ops :=
  if neq (width st) (clientWidth st) || neq (height st) (clientHeight st) then
    let w := clientWidth st in
    let h := clientWidth st in
    (with_resolution w h (Coordinate.mk (w / lit 2) (h / lit 2)) st,
     [ClearRect (lit 0) (lit 0) w h])
  else (st, []).

Definition setup_font (st : State) : Ops :=
  [TextAlign_center; TextBaseline_middle;
   Font_px_monospace (width st * frac 5 100)].

(** The body of the loop of [render_clock] for mark [i], at the angle
    [degrees].  [Object.create(pos)] gives an object that reads [_x] and
    [_y] from [pos] and keeps what is assigned to it for itself: a copy of
    [pos].  The counter [i] is an integer, and [(i * 5) / 5] divides
    exactly. *)
Definition render_mark (full : bool) (diameter : num) (i : Z) (degrees : num) : Ops :=
  let text_margin := frac 1 10 in
  let mark_end_margin := frac 2 10 in
  let mark_begin_margin := frac 3 10 in
  let pos := Coordinate.mk (Math_cos degrees) (Math_sin degrees) in
  let text :=
    if full && (i mod 5 =? 0)%Z then
      let text_pos :=
        Coordinate.translate ((diameter * text_margin) / lit 2) None
          (Coordinate.expand_to (diameter * (lit 1 - text_margin)) pos) in
      [FillText ((i * 5) / 5)%Z (Coordinate.x text_pos) (Coordinate.y text_pos)]
    else [] in
  let mark_begin :=
    Coordinate.translate ((diameter * mark_end_margin) / lit 2) None
      (Coordinate.expand_to (diameter * (lit 1 - mark_end_margin)) pos) in
  let mark_end :=
    Coordinate.translate ((diameter * mark_begin_margin) / lit 2) None
      (Coordinate.expand_to (diameter * (lit 1 - mark_begin_margin)) pos) in
  text ++
  [BeginPath;
   LineWidth (if (i mod 5 =? 0)%Z then lit 5 else lit 1);
   MoveTo (Coordinate.x mark_begin) (Coordinate.y mark_begin);
   LineTo (Coordinate.x mark_end) (Coordinate.y mark_end);
   Stroke;
   ClosePath].

(** [for (let i = 0; i < nr_elements; i++)], with [n] marks left. *)
Fixpoint render_marks (full : bool) (diameter per_element : num)
    (n : nat) (i : Z) (degrees : num) : Ops :=
  match n with
  | O => []
  | S n' =>
      render_mark full diameter i degrees ++
      render_marks full diameter per_element n' (i + 1)%Z (degrees - per_element)
  end.

Definition nr_elements : Z := 12 (* hours *) * 5 (* marks *).

Definition render_clock (st : State) : State * Ops :=
  let degrees_per_element := (lit 2 * Math_PI) / lit nr_elements in
  let diameter := height st in
  let degrees := - Math_PI / lit 2 in
  (with_needs_full_render false st,
   [FillStyle black] ++
   render_marks (needs_full_render st) diameter degrees_per_element
     (Z.to_nat nr_elements) 0%Z degrees ++
   [ClosePath]).

Definition render_fill (st : State) : Ops :=
  let margin := frac 2 10 in
  let radius := Coordinate.y (center st) * (lit 1 - margin) in
  let top_radians := (lit 3 / lit 2) * Math_PI in
  let cx := Coordinate.x (center st) in
  let cy := Coordinate.y (center st) in
  (* draw arc from 0 to x *)
  [BeginPath; MoveTo cx cy;
   Arc cx cy radius (top_radians - time_radians st) top_radians;
   FillStyle red; Fill; ClosePath;
  (* draw little black dial *)
   BeginPath; MoveTo cx cy;
   Arc cx cy (height st / lit 20) (lit 0) (lit 2 * Math_PI);
   FillStyle black; Fill; ClosePath].

(** [render], at the instant [now] of the clock. *)
Definition render (now : num) (st : State) : State * Ops :=
  let '(st1, ops1) :=
    if neq (width st) (height st) then setup_resolution st else (st, []) in
  let cx := Coordinate.x (center st1) in
  let cy := Coordinate.y (center st1) in
  let ops2 :=
    [BeginPath; Arc cx cy (cy * frac 81 100) (lit 0) (lit 2 * Math_PI);
     FillStyle white; Fill; ClosePath] in
  let ops3 := setup_font st1 in
  let ops4 := render_fill st1 in
  let '(st2, ops5) := render_clock st1 in
  (with_prev_render_ms now st2, ops1 ++ ops2 ++ ops3 ++ ops4 ++ ops5).

(** *** The animation loop *)

(** [clearTimeout(id)]: nothing happens when [id] is undefined or names no
    active timer; timeouts and intervals share their ids. *)
Definition clearTimeout (id : option nat) (w : World) : World :=
  match id with
  | Some i => with_timers (timers w ∖ {[ i ]}) (next_timer w) w
  | None => w
  end.

(** [window.setInterval(callback, 200)]: a fresh id, now active. *)
Definition setInterval (w : World) : nat * World :=
  (next_timer w,
   with_timers (timers w ∪ {[ next_timer w ]}) (S (next_timer w)) w).

Definition animate_clock (st : State) (w : World) : State * World :=
  let w1 := clearTimeout (animation_timer st) w in
  let '(id, w2) := setInterval w1 in
  (with_animation_timer (Some id) st, w2).

(** The callback [animate_clock] schedules, run at the instant [now].  The
    second mounting renders once more after the clock reached zero. *)
Definition interval_callback (m : Mounting) (fuel : nat) (now : num)
    (st : State) (w : World) : result (State * World) :=
  let secs_since_last_render := (now - prev_render_ms st) / lit 1000 in
  let '(st1, ops1) := render now st in
  let w1 := draw ops1 w in
  if remaining_seconds st1 - secs_since_last_render <? lit 0 then
    let w2 := clearTimeout (animation_timer st1) w1 in
    let* st2 := set_remaining_seconds fuel (lit 0) st1 in
    match m with
    | CustomElement => Ok (st2, w2)
    | Wrapper => let '(st3, ops3) := render now st2 in Ok (st3, draw ops3 w2)
    end
  else
    let* st2 := set_remaining_seconds fuel
                  (remaining_seconds st1 - secs_since_last_render) st1 in
    Ok (st2, w1).

(** *** The drag gesture *)

(** The angle of the pointer about the center, measured from 12 o'clock. *)
Definition pointer_angle (c : Coordinate.t num) (event : PointerEvent num) : num :=
  let pos := Coordinate.mk (pageX event - rect_left event)
                           (pageY event - rect_top event) in
  (* center pos *)
  let pos := Coordinate.translate (- Coordinate.x c) (Some (- Coordinate.y c)) pos in
  let angle := Math_atan2 (Coordinate.y pos) (Coordinate.x pos) in
  let angle := if angle <? lit 0 then angle + lit 2 * Math_PI else angle in
  let angle := angle + (lit 1 / lit 2) * Math_PI in
  angle % (lit 2 * Math_PI).

Definition mousemove_handler (fuel : nat) (now : num) (event : PointerEvent num)
    (st : State) (w : World) : result (State * World) :=
  let angle := pointer_angle (center st) event in
  let* st1 :=
    match drag_starting_angle st, drag_starting_remaining_seconds st with
    | Some starting_angle, Some starting_remaining_seconds =>
        let diff := starting_angle - angle in
        let seconds_diff := radians_to_seconds diff in
        set_remaining_seconds fuel (starting_remaining_seconds + seconds_diff) st
    | _, _ => Ok (with_drag (Some angle) (Some (remaining_seconds st)) st)
    end in
  let '(st2, ops) := render now st1 in
  Ok (animate_clock st2 (draw ops w)).

(** [touchmove_handler]: [e.touches[0]] is undefined when the list is
    empty, and reading [event.target] of it throws. *)
Definition touchmove_handler (fuel : nat) (now : num)
    (touches : list (PointerEvent num)) (st : State) (w : World)
    : result (State * World) :=
  match touches with
  | [] => Throw TypeError
  | event :: _ => mousemove_handler fuel now event st w
  end.

(** The listeners [handlers] attaches. *)
Definition mouseup (st : State) (w : World) : State * World :=
  (with_drag None None st, with_listeners (listening w) false (touchmove_on w) w).

Definition touchend (st : State) (w : World) : State * World :=
  (with_drag None None st, with_listeners (listening w) (mousemove_on w) false w).

Definition mousedown (w : World) : World :=
  with_listeners (listening w) true (touchmove_on w) w.

Definition touchstart (w : World) : World :=
  with_listeners (listening w) (mousemove_on w) true w.

Definition handlers (w : World) : World :=
  with_listeners true (mousemove_on w) (touchmove_on w) w.

Definition setup (now : num) (st : State) (w : World) : State * World :=
  let '(st1, ops) := render now st in
  animate_clock st1 (handlers (draw ops w)).

(** *** The engine as a transition system *)

(** What can happen to the engine once it exists.  [Layout] is the page
    giving the canvas a new client size; the other events are the callbacks
    the engine registered.  Each handler runs to its end before the next
    event (one thread of control), at one instant [now] of the clock. *)
Inductive Event :=
| Connected (now : num)
| IntervalFires (id : nat) (now : num)
| MouseDown
| MouseMove (now : num) (event : PointerEvent num)
| MouseUp
| TouchStart
| TouchMove (now : num) (touches : list (PointerEvent num))
| TouchEnd
| WindowResize
| Layout (cw ch : num).

(** An event for which no callback is registered changes nothing:
    [connectedCallback] exists in the custom element only, an interval
    fires only while it is active, a listener runs only while attached. *)
Definition dispatch (m : Mounting) (fuel : nat) (e : Event)
    (st : State) (w : World) : result (State * World) :=
  match e with
  | Connected now =>
      match m with
      | CustomElement => Ok (setup now st w)
      | Wrapper => Ok (st, w)
      end
  | IntervalFires id now =>
      if decide (id ∈ timers w) then interval_callback m fuel now st w
      else Ok (st, w)
  | MouseDown => Ok (st, if listening w then mousedown w else w)
  | MouseMove now event =>
      if mousemove_on w then mousemove_handler fuel now event st w
      else Ok (st, w)
  | MouseUp => Ok (if listening w then mouseup st w else (st, w))
  | TouchStart => Ok (st, if listening w then touchstart w else w)
  | TouchMove now touches =>
      if touchmove_on w then touchmove_handler fuel now touches st w
      else Ok (st, w)
  | TouchEnd => Ok (if listening w then touchend st w else (st, w))
  | WindowResize =>
      if listening w then
        let '(st1, ops) := setup_resolution st in Ok (st1, draw ops w)
      else Ok (st, w)
  | Layout cw ch => Ok (with_client_size cw ch st, w)
  end.

Definition fresh_browser : World :=
  {| timers := ∅; next_timer := 1; drawn := [];
     listening := false; mousemove_on := false; touchmove_on := false |}.

(** The engine comes to exist: the wrapper's constructor ends in
    [this.setup()], the custom element waits for [connectedCallback]. *)
Definition boot (m : Mounting) (context : bool) (now w h cw ch : num)
    : result (State * World) :=
  let* st := constructor context now w h cw ch in
  match m with
  | CustomElement => Ok (st, fresh_browser)
  | Wrapper => Ok (setup now st fresh_browser)
  end.

Inductive reachable (m : Mounting) : State * World -> Prop :=
| reach_boot context now w h cw ch p :
    boot m context now w h cw ch = Ok p -> reachable m p
| reach_step fuel e st w p :
    reachable m (st, w) -> dispatch m fuel e st w = Ok p -> reachable m p.

(** A render finds the canvas resized when its width differs from its
    height and one of the two differs from the client's. *)
Definition finds_resize (st : State) : bool :=
  neq (width st) (height st) &&
  (neq (width st) (clientWidth st) || neq (height st) (clientHeight st)).

(** *** Reading the drawing *)

(** The numerals drawn, in order. *)
Definition labels (ops : Ops) : list Z :=
  flat_map (fun op => match op with FillText n _ _ => [n] | _ => [] end) ops.

(** The widths of the lines stroked, in order: a stroke uses the
    [lineWidth] last assigned ([cur] before any assignment). *)
Fixpoint stroke_widths (cur : num) (ops : Ops) : list num :=
  match ops with
  | [] => []
  | LineWidth w :: ops' => stroke_widths w ops'
  | Stroke :: ops' => cur :: stroke_widths cur ops'
  | _ :: ops' => stroke_widths cur ops'
  end.

Definition clears (ops : Ops) : bool :=
  existsb (fun op => match op with ClearRect _ _ _ _ => true | _ => false end) ops.

(** At most one interval of the engine is active, and it is the one
    [animation_timer] names; ids not yet handed out are not active. *)
Definition one_schedule (p : State * World) : Prop :=
  let '(st, w) := p in
  (forall id, id ∈ timers w -> animation_timer st = Some id) /\
  (forall id, animation_timer st = Some id -> id < next_timer w).

End Engine.

(** ** Readings of the specification in real arithmetic *)

(** Zero-crossing normalization: what the loop of [set_remaining_seconds]
    computes, in closed form. *)
Definition wrap_hours (s : R) : R :=
  if Rle_dec 0 s then s else (s + 3600 * IZR (Zceil (- s / 3600)))%R.

(** The normalization as the specification words it:
    [((s % 3600) + 3600) % 3600]. *)
Definition normalized_spec (s : R) : R :=
  Rrem (Rrem s 3600 + 3600) 3600.

(** The invariant of the time model. *)
Definition time_ok (st : TimerCanvas R) : Prop :=
  (0 <= remaining_seconds st)%R /\
  time_radians st = seconds_to_radians (remaining_seconds st).

(** The numerals of a full render. *)
Definition minute_labels : list Z := [0; 5; 10; 15; 20; 25; 30; 35; 40; 45; 50; 55]%Z.

(** The width of the stroke of mark [i]. *)
Definition mark_width {num} `{Number num} (i : nat) : num :=
  if (Z.of_nat i mod 5 =? 0)%Z then lit 5 else lit 1.

(** How many times the loop adds an hour. *)
Definition hours_to_add (s : R) : nat :=
  if Rle_dec 0 s then 0 else Z.to_nat (Zceil (- s / 3600)).

(** Unfolds the operations of [number] at the real instance. *)
Ltac real_ops :=
  cbn [lit neg add sub mul div lt neq Math_PI R_Number
       Math_atan2 Math_cos Math_sin rem R_MathLib] in *.

(** ** Sample inputs *)

Section Samples.
Local Open Scope R_scope.

(** A timer as the constructor leaves it at instant 0, on a canvas of the
    default size (300 by 150) that the page lays out at that size. *)
Definition new_timer : TimerCanvas R :=
  {| width := 300; height := 150; clientWidth := 300; clientHeight := 150;
     center := Coordinate.mk 0%R 0%R;
     needs_full_render := true;
     animation_timer := None;
     prev_render_ms := 0;
     remaining_seconds := (2 * 60)%R;
     time_radians := seconds_to_radians (2 * 60)%R;
     drag_starting_angle := None;
     drag_starting_remaining_seconds := None |}.

(** The same timer after its first render: the numerals are drawn and the
    flag is cleared. *)
Definition rendered_timer : TimerCanvas R :=
  with_needs_full_render false new_timer.

(** A timer on a square canvas of side 300, with [secs] seconds left,
    rendered last at instant 0, its interval 1 active. *)
Definition square_timer (secs : R) : TimerCanvas R :=
  {| width := 300; height := 300; clientWidth := 300; clientHeight := 300;
     center := Coordinate.mk 150%R 150%R;
     needs_full_render := false;
     animation_timer := Some 1%nat;
     prev_render_ms := 0;
     remaining_seconds := secs;
     time_radians := seconds_to_radians secs;
     drag_starting_angle := None;
     drag_starting_remaining_seconds := None |}.

Definition ticking : Browser R :=
  {| timers := {[ 1%nat ]}; next_timer := 2%nat; drawn := [];
     listening := true; mousemove_on := true; touchmove_on := true |}.

(** A pointer at the page position (px, py), over a canvas whose bounding
    rectangle starts at the origin of the page. *)
Definition pointer_at {num} `{Number num} (px py : num) : PointerEvent num :=
  {| pageX := px; pageY := py; rect_left := lit 0; rect_top := lit 0 |}.

(** A timer in real arithmetic read in the arithmetic with NaN. *)
Definition with_NaN (st : TimerCanvas R) : TimerCanvas (option R) :=
  {| width := Some (width st); height := Some (height st);
     clientWidth := Some (clientWidth st);
     clientHeight := Some (clientHeight st);
     center := Coordinate.mk (Some (Coordinate.x (center st)))
                             (Some (Coordinate.y (center st)));
     needs_full_render := needs_full_render st;
     animation_timer := animation_timer st;
     prev_render_ms := Some (prev_render_ms st);
     remaining_seconds := Some (remaining_seconds st);
     time_radians := Some (time_radians st);
     drag_starting_angle := option_map Some (drag_starting_angle st);
     drag_starting_remaining_seconds :=
       option_map Some (drag_starting_remaining_seconds st) |}.

Definition ticking_NaN : Browser (option R) :=
  {| timers := {[ 1%nat ]}; next_timer := 2%nat; drawn := [];
     listening := true; mousemove_on := true; touchmove_on := true |}.

(** A move event without a position: [pageX] and [pageY] are undefined,
    and arithmetic on them gives NaN. *)
Definition no_position : PointerEvent (option R) := pointer_at None None.

End Samples.

(** ** Runs of the engine and readings of its geometry *)

Section Runs.
Context {num : Type} `{Number num} `{MathLib num}.

(** The callbacks of a list of events, one after the other. *)
Fixpoint run (m : Mounting) (fuel : nat) (es : list (Event (num := num)))
    (st : TimerCanvas num) (w : Browser num)
    : result (TimerCanvas num * Browser num) :=
  match es with
  | [] => Ok (st, w)
  | e :: es' =>
      let* p := dispatch m fuel e st w in
      run m fuel es' (fst p) (snd p)
  end.

(** The readings of the clock in one tick: [Date.now()] is read when the
    callback starts, again at the end of the render, and once more at the
    end of the render the second mounting adds when the time has run
    out. *)
Record TickClock := {
  tick_start : num;
  render_end : num;
  zero_render_end : num
}.

(** The callback of [animate_clock] with each reading of the clock at its
    own instant. [interval_callback] is this callback with the three
    readings at one instant. *)
Definition interval_callback_clock (m : Mounting) (fuel : nat) (c : TickClock)
    (st : TimerCanvas num) (w : Browser num)
    : result (TimerCanvas num * Browser num) :=
  let secs_since_last_render :=
    ((tick_start c - prev_render_ms st) / lit 1000)%num in
  let '(st1, ops1) := render (render_end c) st in
  let w1 := draw ops1 w in
  if (remaining_seconds st1 - secs_since_last_render <? lit 0)%num then
    let w2 := clearTimeout (animation_timer st1) w1 in
    let* st2 := set_remaining_seconds fuel (lit 0) st1 in
    match m with
    | CustomElement => Ok (st2, w2)
    | Wrapper =>
        let '(st3, ops3) := render (zero_render_end c) st2 in
        Ok (st3, draw ops3 w2)
    end
  else
    let* st2 := set_remaining_seconds fuel
                  (remaining_seconds st1 - secs_since_last_render)%num st1 in
    Ok (st2, w1).

(** The interval [id] firing once per entry of [ticks], as long as it is
    active. *)
Fixpoint run_ticks (m : Mounting) (fuel : nat) (id : nat)
    (ticks : list TickClock) (st : TimerCanvas num) (w : Browser num)
    : result (TimerCanvas num * Browser num) :=
  match ticks with
  | [] => Ok (st, w)
  | c :: ticks' =>
      let* p := (if decide (id ∈ timers w)
                 then interval_callback_clock m fuel c st w
                 else Ok (st, w)) in
      run_ticks m fuel id ticks' (fst p) (snd p)
  end.

End Runs.

Section Geometry.
Local Open Scope R_scope.

(** A clock that does not go back over a run of ticks, from the end [r0]
    of the render before the run. *)
Fixpoint in_order (r0 : R) (ticks : list (TickClock (num := R))) : Prop :=
  match ticks with
  | [] => True
  | c :: ticks' =>
      r0 <= tick_start c /\ tick_start c <= render_end c /\
      in_order (render_end c) ticks'
  end.

(** The time between the end of each render and the start of the tick
    after it, summed over a run. *)
Fixpoint waited (r0 : R) (ticks : list (TickClock (num := R))) : R :=
  match ticks with
  | [] => 0
  | c :: ticks' => (tick_start c - r0) + waited (render_end c) ticks'
  end.

(** The time the renders of a run take, from the start of each tick to
    the end of its render. *)
Fixpoint rendering (ticks : list (TickClock (num := R))) : R :=
  match ticks with
  | [] => 0
  | c :: ticks' => (render_end c - tick_start c) + rendering ticks'
  end.

(** The instant at which the last render of a run ends. *)
Fixpoint last_render (r0 : R) (ticks : list (TickClock (num := R))) : R :=
  match ticks with
  | [] => r0
  | c :: ticks' => last_render (render_end c) ticks'
  end.

(** The angle at which the loop of [render_clock] draws mark [k]. *)
Definition mark_angle (k : nat) : R := - PI / 2 - INR k * (2 * PI / 60).

(** The square of the distance between two points of the canvas. *)
Definition sq_dist (x y cx cy : R) : R :=
  (x - cx) * (x - cx) + (y - cy) * (y - cy).

(** The origin of a drag is recorded whole or not at all, its angle is one
    [pointer_angle] can give and its seconds are not negative. *)
Definition drag_ok (st : TimerCanvas R) : Prop :=
  match drag_starting_angle st, drag_starting_remaining_seconds st with
  | Some a, Some s => 0 <= a < 2 * PI /\ 0 <= s
  | None, None => True
  | _, _ => False
  end.

End Geometry.

(** ** Facts that hold in every arithmetic *)

Section EngineFacts.
Context {num : Type} `{Number num} `{MathLib num}.
Local Open Scope num_scope.

Lemma labels_app (a b : list (DrawOp num)) :
  labels (a ++ b) = labels a ++ labels b.
Proof. unfold labels. apply flat_map_app. Qed.

Lemma clears_app (a b : list (DrawOp num)) :
  clears (a ++ b) = clears a || clears b.
Proof. unfold clears. apply existsb_app. Qed.

(** A fill-only pass draws no numeral. *)
Lemma labels_render_marks_fill_only d p n i deg :
  labels (render_marks false d p n i deg) = [].
Proof.
  revert i deg. induction n as [|n IH]; intros i deg; cbn [render_marks].
  - reflexivity.
  - rewrite labels_app, IH. unfold render_mark. reflexivity.
Qed.

Lemma labels_render_clock (st : TimerCanvas num) :
  labels (snd (render_clock st)) =
  if needs_full_render st then minute_labels else [].
Proof.
  unfold render_clock. cbv zeta. cbn [snd]. rewrite !labels_app.
  destruct (needs_full_render st).
  - reflexivity.
  - rewrite labels_render_marks_fill_only. reflexivity.
Qed.

Lemma stroke_widths_render_clock cur (st : TimerCanvas num) :
  stroke_widths cur (snd (render_clock st)) = map mark_width (seq 0 60).
Proof.
  unfold render_clock. cbv zeta. cbn [snd].
  destruct (needs_full_render st); reflexivity.
Qed.

(** *** What rendering leaves alone *)

Lemma setup_resolution_keeps (st : TimerCanvas num) :
  let st' := fst (setup_resolution st) in
  remaining_seconds st' = remaining_seconds st /\
  time_radians st' = time_radians st /\
  animation_timer st' = animation_timer st /\
  drag_starting_angle st' = drag_starting_angle st /\
  drag_starting_remaining_seconds st' = drag_starting_remaining_seconds st.
Proof.
  unfold setup_resolution.
  destruct (neq (width st) (clientWidth st) || neq (height st) (clientHeight st));
    cbn; repeat split; reflexivity.
Qed.

Lemma render_keeps now (st : TimerCanvas num) :
  let st' := fst (render now st) in
  remaining_seconds st' = remaining_seconds st /\
  time_radians st' = time_radians st /\
  animation_timer st' = animation_timer st /\
  drag_starting_angle st' = drag_starting_angle st /\
  drag_starting_remaining_seconds st' = drag_starting_remaining_seconds st /\
  needs_full_render st' = false.
Proof.
  pose proof (setup_resolution_keeps st) as K. cbv zeta in K.
  unfold render.
  destruct (neq (width st) (height st)).
  - destruct (setup_resolution st) as [st1 ops1]. cbn in *. tauto.
  - cbn. repeat split; reflexivity.
Qed.

Lemma set_remaining_seconds_keeps fuel s (st st' : TimerCanvas num) :
  set_remaining_seconds fuel s st = Ok st' ->
  animation_timer st' = animation_timer st /\
  drag_starting_angle st' = drag_starting_angle st /\
  drag_starting_remaining_seconds st' = drag_starting_remaining_seconds st /\
  center st' = center st /\
  time_radians st' = seconds_to_radians (remaining_seconds st') /\
  add_hours fuel s = Ok (remaining_seconds st').
Proof.
  unfold set_remaining_seconds.
  destruct (add_hours fuel s) as [r| |]; cbn; intros E; inversion E; subst.
  cbn. repeat split; reflexivity.
Qed.

(** More fuel does not change what the loop returns. *)
Lemma add_hours_more_fuel n m (s r : num) :
  add_hours n s = Ok r -> n <= m -> add_hours m s = Ok r.
Proof.
  revert m s. induction n as [|n IH]; intros m s E L; [discriminate|].
  destruct m as [|m]; [lia|]. cbn in *.
  destruct (s <? lit 0); [apply IH; [exact E|lia] | exact E].
Qed.

(** *** What one render does *)

Lemma clears_render_clock (st : TimerCanvas num) :
  clears (snd (render_clock st)) = false.
Proof.
  unfold render_clock. cbv zeta. cbn [snd].
  destruct (needs_full_render st); reflexivity.
Qed.

Lemma render_spec now (st : TimerCanvas num) :
  let cw := clientWidth st in
  fst (render now st) =
    with_prev_render_ms now
      (with_needs_full_render false
         (if finds_resize st
          then with_resolution cw cw (Coordinate.mk (cw / lit 2) (cw / lit 2)) st
          else st)) /\
  labels (snd (render now st)) =
    (if finds_resize st || needs_full_render st then minute_labels else []) /\
  clears (snd (render now st)) = finds_resize st.
Proof.
  cbv zeta. unfold finds_resize, render, setup_resolution.
  destruct (neq (width st) (height st)); cbn [andb];
    [destruct (neq (width st) (clientWidth st) || neq (height st) (clientHeight st))|];
    cbv zeta;
    match goal with
    | |- context [render_clock ?X] =>
        pose proof (labels_render_clock X) as L;
        pose proof (clears_render_clock X) as C;
        assert (fst (render_clock X) = with_needs_full_render false X) as F
          by reflexivity;
        destruct (render_clock X) as [st2 ops5]
    end;
    cbn [fst snd] in *; subst st2;
    (split; [reflexivity|]);
    rewrite !labels_app, !clears_app, L, C;
    split; reflexivity.
Qed.

(** *** One schedule *)

Lemma animate_clock_schedules (st : TimerCanvas num) (w : Browser num) :
  one_schedule (st, w) ->
  timers (snd (animate_clock st w)) = {[ next_timer w ]} /\
  animation_timer (fst (animate_clock st w)) = Some (next_timer w) /\
  next_timer (snd (animate_clock st w)) = S (next_timer w).
Proof.
  intros [A B]. unfold animate_clock, setInterval, clearTimeout.
  destruct (animation_timer st) as [old|] eqn:E; cbn.
  - repeat split. apply set_eq. intros i. split.
    + intros Hi. apply elem_of_union in Hi as [Hi|Hi]; [|exact Hi].
      apply elem_of_difference in Hi as [Hi Hn].
      apply A in Hi. inversion Hi; subst. set_solver.
    + set_solver.
  - repeat split. apply set_eq. intros i. split.
    + intros Hi. apply elem_of_union in Hi as [Hi|Hi]; [|exact Hi].
      apply A in Hi. discriminate.
    + set_solver.
Qed.

Lemma animate_clock_one_schedule (st : TimerCanvas num) (w : Browser num) :
  one_schedule (st, w) -> one_schedule (animate_clock st w).
Proof.
  intros I. destruct (animate_clock_schedules st w I) as (T & A & N).
  destruct (animate_clock st w) as [st' w']. cbn in *.
  split; intros id Hid.
  - rewrite T in Hid. apply elem_of_singleton in Hid. subst. exact A.
  - rewrite A in Hid. inversion Hid. lia.
Qed.

(** [one_schedule] reads three components only. *)
Lemma one_schedule_same (st st' : TimerCanvas num) (w w' : Browser num) :
  animation_timer st' = animation_timer st ->
  timers w' = timers w -> next_timer w' = next_timer w ->
  one_schedule (st, w) -> one_schedule (st', w').
Proof.
  intros A T N [I J]. split; intros id.
  - rewrite T, A. apply I.
  - rewrite N, A. apply J.
Qed.

Lemma one_schedule_cleared (st st' : TimerCanvas num) (w w' : Browser num) id :
  animation_timer st' = animation_timer st ->
  timers w' = timers w ∖ {[ id ]} -> next_timer w' = next_timer w ->
  one_schedule (st, w) -> one_schedule (st', w').
Proof.
  intros A T N [I J]. split; intros i.
  - rewrite T, A. intros Hi. apply I.
    apply elem_of_difference in Hi as [Hi _]. exact Hi.
  - rewrite N, A. apply J.
Qed.

Lemma setup_one_schedule now (st : TimerCanvas num) (w : Browser num) :
  one_schedule (st, w) -> one_schedule (setup now st w).
Proof.
  intros I. unfold setup.
  pose proof (render_keeps now st) as K. cbv zeta in K.
  destruct (render now st) as [st1 ops]. cbn [fst] in K.
  apply animate_clock_one_schedule.
  apply (one_schedule_same st st1 w); [tauto|reflexivity|reflexivity|exact I].
Qed.

Lemma interval_callback_one_schedule m fuel now
    (st : TimerCanvas num) (w : Browser num) p :
  one_schedule (st, w) ->
  interval_callback m fuel now st w = Ok p -> one_schedule p.
Proof.
  intros I. unfold interval_callback.
  pose proof (render_keeps now st) as K. cbv zeta in K.
  destruct (render now st) as [st1 ops1]. cbn [fst] in K.
  assert (I1 : one_schedule (st1, draw ops1 w)).
  { apply (one_schedule_same st st1 w); [tauto|reflexivity|reflexivity|exact I]. }
  destruct (_ <? _).
  - destruct (set_remaining_seconds fuel (lit 0) st1) as [st2| |] eqn:E;
      cbn [bind]; try discriminate.
    apply set_remaining_seconds_keeps in E.
    assert (I2 : one_schedule (st2, clearTimeout (animation_timer st1) (draw ops1 w))).
    { unfold clearTimeout. destruct (animation_timer st1) as [id|] eqn:A.
      - apply (one_schedule_cleared st1 st2 (draw ops1 w) _ id);
          [rewrite A; tauto|reflexivity|reflexivity|exact I1].
      - apply (one_schedule_same st1 st2 (draw ops1 w));
          [rewrite A; tauto|reflexivity|reflexivity|exact I1]. }
    destruct m.
    + intros P. inversion P; subst. exact I2.
    + pose proof (render_keeps now st2) as K2. cbv zeta in K2.
      destruct (render now st2) as [st3 ops3]. cbn [fst] in K2.
      intros P. inversion P; subst.
      eapply one_schedule_same; [| | |exact I2]; [tauto|reflexivity|reflexivity].
  - destruct (set_remaining_seconds fuel _ st1) as [st2| |] eqn:E;
      cbn [bind]; try discriminate.
    apply set_remaining_seconds_keeps in E.
    intros P. inversion P; subst.
    apply (one_schedule_same st1 st2 (draw ops1 w));
      [tauto|reflexivity|reflexivity|exact I1].
Qed.

Lemma mousemove_handler_one_schedule fuel now event
    (st : TimerCanvas num) (w : Browser num) p :
  one_schedule (st, w) ->
  mousemove_handler fuel now event st w = Ok p -> one_schedule p.
Proof.
  intros I. unfold mousemove_handler.
  set (step := match drag_starting_angle st with Some _ => _ | None => _ end).
  assert (S1 : forall st1, step = Ok st1 -> animation_timer st1 = animation_timer st).
  { intros st1. unfold step.
    destruct (drag_starting_angle st), (drag_starting_remaining_seconds st);
      intros E; try (inversion E; subst; reflexivity).
    apply set_remaining_seconds_keeps in E. tauto. }
  destruct step as [st1| |]; cbn [bind]; try discriminate.
  specialize (S1 st1 eq_refl).
  pose proof (render_keeps now st1) as K. cbv zeta in K.
  destruct (render now st1) as [st2 ops]. cbn [fst] in K.
  intros P. inversion P; subst.
  apply animate_clock_one_schedule.
  apply (one_schedule_same st st2 w);
    [rewrite <- S1; tauto|reflexivity|reflexivity|exact I].
Qed.

Lemma dispatch_one_schedule m fuel e (st : TimerCanvas num) (w : Browser num) p :
  one_schedule (st, w) -> dispatch m fuel e st w = Ok p -> one_schedule p.
Proof.
  intros I. destruct e; cbn [dispatch].
  - destruct m; intros P; inversion P; subst;
      [apply setup_one_schedule|]; exact I.
  - destruct (decide _).
    + apply interval_callback_one_schedule, I.
    + intros P; inversion P; subst; exact I.
  - intros P; inversion P; subst. destruct (listening w); exact I.
  - destruct (mousemove_on w).
    + apply mousemove_handler_one_schedule, I.
    + intros P; inversion P; subst; exact I.
  - intros P; inversion P; subst. destruct (listening w); exact I.
  - intros P; inversion P; subst. destruct (listening w); exact I.
  - destruct (touchmove_on w).
    + destruct touches as [|event ?]; cbn; [discriminate|].
      apply mousemove_handler_one_schedule, I.
    + intros P; inversion P; subst; exact I.
  - intros P; inversion P; subst. destruct (listening w); exact I.
  - destruct (listening w).
    + pose proof (setup_resolution_keeps st) as K. cbv zeta in K.
      destruct (setup_resolution st) as [st1 ops]. cbn [fst] in K.
      intros P; inversion P; subst.
      apply (one_schedule_same st st1 w); [tauto|reflexivity|reflexivity|exact I].
    + intros P; inversion P; subst; exact I.
  - intros P; inversion P; subst. exact I.
Qed.

Lemma boot_one_schedule m context now a b c d (p : TimerCanvas num * Browser num) :
  boot m context now a b c d = Ok p -> one_schedule p.
Proof.
  unfold boot, constructor. destruct context; cbn [bind]; [|discriminate].
  set (st0 := Build_TimerCanvas _ _ _ _ _ _ _ _ _ _ _ _ _).
  assert (I0 : one_schedule (st0, fresh_browser)).
  { split; intros id; cbn; [set_solver|discriminate]. }
  destruct m; intros P; inversion P; subst;
    [|apply setup_one_schedule]; exact I0.
Qed.

Lemma reachable_one_schedule m (p : TimerCanvas num * Browser num) :
  reachable m p -> one_schedule p.
Proof.
  induction 1 as [context now a b c d p B | fuel e st w p R IH D].
  - eapply boot_one_schedule, B.
  - eapply dispatch_one_schedule; [exact IH|exact D].
Qed.

(** *** The shape of the two callbacks *)

Lemma animate_clock_state (st : TimerCanvas num) (w : Browser num) :
  fst (animate_clock st w) = with_animation_timer (Some (next_timer w)) st /\
  drawn (snd (animate_clock st w)) = drawn w.
Proof.
  unfold animate_clock, setInterval, clearTimeout.
  destruct (animation_timer st); split; reflexivity.
Qed.

(** Once the drag has updated the state to [st1], the handler renders it and
    restarts the animation; neither touches the time or the drag origin. *)
Lemma mousemove_handler_result fuel now event
    (st st1 : TimerCanvas num) (w : Browser num) :
  match drag_starting_angle st, drag_starting_remaining_seconds st with
  | Some a, Some s =>
      set_remaining_seconds fuel
        (s + radians_to_seconds (a - pointer_angle (center st) event)) st
  | _, _ =>
      Ok (with_drag (Some (pointer_angle (center st) event))
            (Some (remaining_seconds st)) st)
  end = Ok st1 ->
  exists p,
    mousemove_handler fuel now event st w = Ok p /\
    p = animate_clock (fst (render now st1)) (draw (snd (render now st1)) w) /\
    remaining_seconds (fst p) = remaining_seconds st1 /\
    time_radians (fst p) = time_radians st1 /\
    drag_starting_angle (fst p) = drag_starting_angle st1 /\
    drag_starting_remaining_seconds (fst p) = drag_starting_remaining_seconds st1.
Proof.
  intros E. unfold mousemove_handler. cbv zeta. rewrite E. cbn [bind].
  pose proof (render_keeps now st1) as K. cbv zeta in K.
  destruct (render now st1) as [st2 ops]. cbn [fst snd] in *.
  eexists. split; [reflexivity|]. split; [reflexivity|].
  destruct (animate_clock_state st2 (draw ops w)) as [A _].
  rewrite A. cbn. tauto.
Qed.

End EngineFacts.

(** ** Facts of real arithmetic *)

Section RealFacts.
Local Open Scope R_scope.

Lemma Rltb_lt a b : a < b -> Rltb a b = true.
Proof. intros L. unfold Rltb. destruct (Rlt_dec a b); [reflexivity|lra]. Qed.

Lemma Rltb_ge a b : b <= a -> Rltb a b = false.
Proof. intros L. unfold Rltb. destruct (Rlt_dec a b); [lra|reflexivity]. Qed.

Lemma Rneqb_neq a b : a <> b -> Rneqb a b = true.
Proof. intros N. unfold Rneqb. destruct (Req_dec_T a b); [contradiction|reflexivity]. Qed.

Lemma Rneqb_eq a : Rneqb a a = false.
Proof. unfold Rneqb. destruct (Req_dec_T a a); [reflexivity|contradiction]. Qed.

(** The loop adds [k] hours when [k] is the least count that reaches zero. *)
Lemma add_hours_least (k : nat) (s : R) :
  (k = 0%nat /\ 0 <= s) \/ (s < 0 /\ 0 <= s + 3600 * INR k < 3600) ->
  exists r, add_hours (S k) s = Ok r /\ r = s + 3600 * INR k.
Proof.
  revert s. induction k as [|k IH]; intros s P.
  - assert (0 <= s) as L.
    { destruct P as [[_ L]|[L1 L2]]; [exact L|]. cbn in L2. lra. }
    exists s. cbn [add_hours]. real_ops. rewrite Rltb_ge by exact L.
    split; [reflexivity|]. cbn. lra.
  - destruct P as [[E _]|[L B]]; [discriminate|].
    rewrite S_INR in B.
    destruct (IH (s + 60 * 60)) as (r & E & Er).
    { destruct k as [|k].
      - left. split; [reflexivity|]. cbn in B. lra.
      - right. pose proof (pos_INR k) as Pk. rewrite S_INR in *. lra. }
    exists r. split.
    + change (add_hours (S (S k)) s) with
        (if s <? lit 0 then add_hours (S k) (s + lit 60 * lit 60) else Ok s)%num.
      real_ops. rewrite Rltb_lt by exact L. exact E.
    + rewrite S_INR. lra.
Qed.

Lemma wrap_hours_nonneg s : 0 <= s -> wrap_hours s = s.
Proof. intros L. unfold wrap_hours. destruct (Rle_dec 0 s); [reflexivity|lra]. Qed.

Lemma wrap_hours_neg s :
  s < 0 ->
  wrap_hours s = s + 3600 * IZR (Zceil (- s / 3600)) /\
  (0 < Zceil (- s / 3600))%Z /\
  0 <= wrap_hours s < 3600.
Proof.
  intros L. unfold wrap_hours. destruct (Rle_dec 0 s); [lra|].
  pose proof (Zceil_bound (- s / 3600)) as B.
  split; [reflexivity|]. split.
  - apply lt_IZR. lra.
  - lra.
Qed.

Lemma add_hours_wraps (s : R) :
  add_hours (S (hours_to_add s)) s = Ok (wrap_hours s).
Proof.
  destruct (Rle_dec 0 s) as [L|L].
  - destruct (add_hours_least 0 s) as (r & E & Er); [left; tauto|].
    unfold hours_to_add. destruct (Rle_dec 0 s); [|lra].
    rewrite E, wrap_hours_nonneg by exact L. f_equal. cbn in Er. lra.
  - assert (s < 0) as L' by lra.
    destruct (wrap_hours_neg s L') as (W & Z & B).
    assert (INR (hours_to_add s) = IZR (Zceil (- s / 3600))) as K.
    { unfold hours_to_add. destruct (Rle_dec 0 s); [lra|].
      rewrite INR_IZR_INZ, Z2Nat.id by lia. reflexivity. }
    destruct (add_hours_least (hours_to_add s) s) as (r & E & Er).
    { right. rewrite K, <- W. split; [exact L'|exact B]. }
    rewrite E. f_equal. rewrite Er, K, W. reflexivity.
Qed.

Lemma add_hours_total (s : R) fuel :
  (hours_to_add s < fuel)%nat -> add_hours fuel s = Ok (wrap_hours s).
Proof.
  intros L. eapply add_hours_more_fuel; [apply add_hours_wraps|lia].
Qed.

(** *** The remainder *)

Lemma Rdiv_between x y (z : Z) :
  0 < y -> IZR z * y <= x < (IZR z + 1) * y ->
  IZR z <= x / y < IZR z + 1.
Proof.
  intros Y B. assert (x = x / y * y) as E by (field; lra).
  set (q := x / y) in *. clearbody q. subst x. split; nra.
Qed.

Lemma Rrem_floor x y (z : Z) :
  0 < y -> 0 <= x -> IZR z * y <= x < (IZR z + 1) * y ->
  Rrem x y = x - y * IZR z.
Proof.
  intros Y X B. pose proof (Rdiv_between x y z Y B) as Q.
  unfold Rrem, Rtrunc.
  assert (0 <= x / y) as Q0.
  { assert (x = x / y * y) as E by (field; lra). nra. }
  destruct (Rle_dec 0 (x / y)); [|contradiction].
  rewrite (Zfloor_eq z) by exact Q. reflexivity.
Qed.

Lemma Rrem_ceil x y (z : Z) :
  0 < y -> x < 0 -> (IZR z - 1) * y < x <= IZR z * y ->
  Rrem x y = x - y * IZR z.
Proof.
  intros Y X B. unfold Rrem, Rtrunc.
  assert (x = x / y * y) as E by (field; lra).
  assert (x / y < 0) as Q0 by nra.
  destruct (Rle_dec 0 (x / y)); [lra|].
  rewrite (Zceil_eq z); [reflexivity|].
  set (q := x / y) in *. clearbody q. subst x. split; nra.
Qed.

Lemma Rrem_small x y : 0 <= x < y -> Rrem x y = x.
Proof.
  intros B. rewrite (Rrem_floor x y 0) by lra. lra.
Qed.

(** Two values of one period that differ by whole periods are equal. *)
Lemma congruent_unique a b (z : Z) :
  0 <= a < 3600 -> 0 <= b < 3600 -> a - b = 3600 * IZR z -> a = b.
Proof.
  intros A B E. assert (z = 0%Z) as Z0.
  { assert (-1 < z < 1)%Z as Zb by (split; apply lt_IZR; lra). lia. }
  subst z. lra.
Qed.

(** Below zero the loop computes what the specification's formula does. *)
Lemma normalized_spec_neg s : s < 0 -> normalized_spec s = wrap_hours s.
Proof.
  intros L. destruct (wrap_hours_neg s L) as (W & _ & Bw).
  unfold normalized_spec.
  pose proof (Zceil_bound (s / 3600)) as C.
  rewrite (Rrem_ceil s 3600 (Zceil (s / 3600))) by lra.
  set (c := Zceil (s / 3600)) in *.
  set (x := s - 3600 * IZR c + 3600).
  assert (0 < x <= 3600) as Bx by (unfold x; lra).
  pose proof (Zfloor_bound (x / 3600)) as F.
  rewrite (Rrem_floor x 3600 (Zfloor (x / 3600))) by lra.
  set (f := Zfloor (x / 3600)) in *.
  assert (0 <= IZR f) as F0.
  { apply IZR_le. assert (-1 < f)%Z; [apply lt_IZR; lra|lia]. }
  apply (congruent_unique _ _ (1 - c - f - Zceil (- s / 3600))).
  - lra.
  - exact Bw.
  - rewrite W, !minus_IZR. unfold x. lra.
Qed.

(** *** The callbacks in real arithmetic *)

Lemma add_hours_nonneg fuel (s r : R) : add_hours fuel s = Ok r -> 0 <= r.
Proof.
  revert s. induction fuel as [|fuel IH]; intros s; [discriminate|].
  cbn [add_hours]. real_ops. unfold Rltb.
  destruct (Rlt_dec s 0) as [L|L].
  - apply IH.
  - intros E. inversion E; subst. lra.
Qed.

Lemma set_remaining_seconds_time_ok fuel s (st st' : TimerCanvas R) :
  set_remaining_seconds fuel s st = Ok st' -> time_ok st'.
Proof.
  intros E. apply set_remaining_seconds_keeps in E.
  destruct E as (_ & _ & _ & _ & T & A).
  split; [eapply add_hours_nonneg, A|exact T].
Qed.

Lemma set_remaining_seconds_real s (st : TimerCanvas R) fuel :
  (hours_to_add s < fuel)%nat ->
  set_remaining_seconds fuel s st =
  Ok (with_time (wrap_hours s) (seconds_to_radians (wrap_hours s)) st).
Proof.
  intros L. unfold set_remaining_seconds.
  rewrite add_hours_total by exact L. reflexivity.
Qed.

Lemma hours_to_add_nonneg s : 0 <= s -> hours_to_add s = 0%nat.
Proof.
  intros L. unfold hours_to_add. destruct (Rle_dec 0 s); [reflexivity|lra].
Qed.

(** One tick: the loop of [set_remaining_seconds] never runs in it. *)
Lemma interval_callback_real m fuel now (st : TimerCanvas R) (w : Browser R) :
  interval_callback m (S fuel) now st w =
  let elapsed := (now - prev_render_ms st) / 1000 in
  let st1 := fst (render now st) in
  let w1 := draw (snd (render now st)) w in
  if Rlt_dec (remaining_seconds st - elapsed) 0 then
    let st2 := with_time 0 (seconds_to_radians 0) st1 in
    let w2 := clearTimeout (animation_timer st) w1 in
    match m with
    | CustomElement => Ok (st2, w2)
    | Wrapper => Ok (fst (render now st2), draw (snd (render now st2)) w2)
    end
  else
    Ok (with_time (remaining_seconds st - elapsed)
          (seconds_to_radians (remaining_seconds st - elapsed)) st1, w1).
Proof.
  unfold interval_callback. cbv zeta.
  pose proof (render_keeps now st) as K. cbv zeta in K.
  destruct (render now st) as [st1 ops1]. cbn [fst snd] in *.
  destruct K as (Kr & _ & Ka & _).
  rewrite Kr, Ka. real_ops. unfold Rltb at 1.
  destruct (Rlt_dec (remaining_seconds st - (now - prev_render_ms st) / 1000) 0)
    as [L|L].
  - rewrite set_remaining_seconds_real
      by (rewrite hours_to_add_nonneg by lra; lia).
    rewrite wrap_hours_nonneg by lra. cbn [bind].
    destruct m; [reflexivity|].
    destruct (render now _) as [st3 ops3]. reflexivity.
  - rewrite set_remaining_seconds_real
      by (rewrite hours_to_add_nonneg by lra; lia).
    rewrite wrap_hours_nonneg by lra. reflexivity.
Qed.

Lemma time_ok_same (st st' : TimerCanvas R) :
  remaining_seconds st' = remaining_seconds st ->
  time_radians st' = time_radians st -> time_ok st -> time_ok st'.
Proof. intros A B [P Q]. split; rewrite A; [|rewrite B]; assumption. Qed.

Lemma render_time_ok now (st : TimerCanvas R) :
  time_ok st -> time_ok (fst (render now st)).
Proof.
  pose proof (render_keeps now st) as K. cbv zeta in K.
  apply time_ok_same; tauto.
Qed.

Lemma animate_clock_time_ok (st : TimerCanvas R) (w : Browser R) :
  time_ok st -> time_ok (fst (animate_clock st w)).
Proof.
  destruct (animate_clock_state st w) as [A _]. rewrite A.
  apply time_ok_same; reflexivity.
Qed.

Lemma mousemove_handler_time_ok fuel now event (st : TimerCanvas R) w p :
  time_ok st -> mousemove_handler fuel now event st w = Ok p -> time_ok (fst p).
Proof.
  intros T. unfold mousemove_handler. cbv zeta.
  set (step := match drag_starting_angle st with Some _ => _ | None => _ end).
  assert (S1 : forall st1, step = Ok st1 -> time_ok st1).
  { intros st1. unfold step.
    destruct (drag_starting_angle st), (drag_starting_remaining_seconds st);
      intros E; try (inversion E; subst; exact T).
    eapply set_remaining_seconds_time_ok, E. }
  destruct step as [st1| |]; cbn [bind]; try discriminate.
  specialize (S1 st1 eq_refl).
  pose proof (render_time_ok now st1 S1) as K.
  destruct (render now st1) as [st2 ops]. cbn [fst] in K.
  intros P. inversion P; subst. apply animate_clock_time_ok, K.
Qed.

Lemma dispatch_time_ok m fuel e (st : TimerCanvas R) (w : Browser R) p :
  time_ok st -> dispatch m fuel e st w = Ok p -> time_ok (fst p).
Proof.
  intros T. destruct e; cbn [dispatch].
  - destruct m; intros P; inversion P; subst; [|exact T].
    unfold setup. pose proof (render_time_ok now st T) as K.
    destruct (render now st) as [st1 ops]. apply animate_clock_time_ok, K.
  - destruct (decide _); [|intros P; inversion P; subst; exact T].
    destruct fuel as [|fuel].
    + unfold interval_callback, set_remaining_seconds. cbv zeta.
      destruct (render now st) as [st1 ops1].
      destruct (_ <? _)%num; cbn; discriminate.
    + rewrite interval_callback_real. cbv zeta.
      pose proof (render_time_ok now st T) as K.
      assert (Z : time_ok (with_time 0 (seconds_to_radians 0) (fst (render now st)))).
      { split; cbn; [lra|reflexivity]. }
      destruct (Rlt_dec _ 0) as [L|L].
      * destruct m; intros P; inversion P; subst; cbn [fst];
          [exact Z|apply render_time_ok, Z].
      * intros P; inversion P; subst. split; cbn; [lra|reflexivity].
  - intros P; inversion P; subst. exact T.
  - destruct (mousemove_on w); [|intros P; inversion P; subst; exact T].
    apply mousemove_handler_time_ok, T.
  - intros P; inversion P; subst. destruct (listening w); exact T.
  - intros P; inversion P; subst. exact T.
  - destruct (touchmove_on w); [|intros P; inversion P; subst; exact T].
    destruct touches as [|event ?]; cbn; [discriminate|].
    apply mousemove_handler_time_ok, T.
  - intros P; inversion P; subst. destruct (listening w); exact T.
  - destruct (listening w); [|intros P; inversion P; subst; exact T].
    pose proof (setup_resolution_keeps st) as K. cbv zeta in K.
    destruct (setup_resolution st) as [st1 ops]. cbn [fst] in K.
    intros P; inversion P; subst. cbn [fst].
    eapply time_ok_same; [| |exact T]; tauto.
  - intros P; inversion P; subst. exact T.
Qed.

Lemma boot_time_ok m context now a b c d (p : TimerCanvas R * Browser R) :
  boot m context now a b c d = Ok p -> time_ok (fst p).
Proof.
  unfold boot, constructor. destruct context; cbn [bind]; [|discriminate].
  set (st0 := Build_TimerCanvas _ _ _ _ _ _ _ _ _ _ _ _ _).
  assert (T0 : time_ok st0).
  { split; [|reflexivity]. unfold st0. cbn [remaining_seconds]. real_ops. lra. }
  destruct m; intros P; inversion P; subst; [exact T0|].
  unfold setup. pose proof (render_time_ok now st0 T0) as K.
  destruct (render now st0) as [st1 ops]. apply animate_clock_time_ok, K.
Qed.

(** *** The pointer's angle *)

Lemma Ratan2_right y x : 0 < x -> Ratan2 y x = atan (y / x).
Proof. intros L. unfold Ratan2. destruct (Rlt_dec 0 x); [reflexivity|lra]. Qed.

Lemma pointer_angle_real (c : Coordinate.t R) (event : PointerEvent R) (a : R) :
  Ratan2 (pageY event - rect_top event + - Coordinate.y c)
         (pageX event - rect_left event + - Coordinate.x c) = a ->
  0 <= a < 3 / 2 * PI ->
  pointer_angle c event = a + 1 / 2 * PI.
Proof.
  intros E B. pose proof PI_RGT_0 as P.
  unfold pointer_angle, Coordinate.translate. cbv zeta.
  cbn [Coordinate.x Coordinate.y]. real_ops. rewrite E.
  rewrite Rltb_ge by lra. apply Rrem_small. lra.
Qed.

Lemma center_render_with_drag now a b (st : TimerCanvas R) :
  center (fst (render now (with_drag a b st))) = center (fst (render now st)).
Proof.
  destruct (render_spec now (with_drag a b st)) as (F & _).
  destruct (render_spec now st) as (G & _). cbv zeta in F, G.
  rewrite F, G.
  change (finds_resize (with_drag a b st)) with (finds_resize st).
  destruct (finds_resize st); reflexivity.
Qed.

Lemma radians_to_seconds_unit : radians_to_seconds (PI / 30) = 60.
Proof.
  unfold radians_to_seconds. real_ops. field. exact PI_neq0.
Qed.

End RealFacts.

(** ** Claims that hold in every arithmetic *)

Section ClaimsAnyArithmetic.
Context {num : Type} `{Number num} `{MathLib num}.
Local Open Scope num_scope.

(** C6, as the code has it. Of the 60 marks of the clock face, mark [i] is
    stroked with width 5 when 5 divides [i] and with width 1 otherwise.
    Numerals are drawn only while [needs_full_render] is true, one beside
    each mark that 5 divides, and the numeral of mark [i] is [i] itself
    (0, 5, ..., 55), not [i] divided by 5. The pass clears the flag. *)
Theorem render_clock_marks_and_numerals (cur : num) (st : TimerCanvas num) :
  stroke_widths cur (snd (render_clock st)) = map mark_width (seq 0 60) /\
  labels (snd (render_clock st)) =
    (if needs_full_render st then minute_labels else []) /\
  minute_labels =
    map Z.of_nat (filter (fun i => i mod 5 =? 0)%nat (seq 0 60)) /\
  (forall full d i deg,
      labels (render_mark full d i deg) =
        (if full && (i mod 5 =? 0)%Z then [i] else []) /\
      stroke_widths cur (render_mark full d i deg) =
        [if (i mod 5 =? 0)%Z then lit 5 else lit 1]) /\
  needs_full_render (fst (render_clock st)) = false.
Proof.
  split; [apply stroke_widths_render_clock|].
  split; [apply labels_render_clock|].
  split; [reflexivity|]. split; [|reflexivity].
  intros full d i deg. unfold render_mark. cbv zeta.
  rewrite labels_app.
  destruct (full && (i mod 5 =? 0)%Z); cbn [labels flat_map app stroke_widths];
    [rewrite Z.div_mul by lia|]; split; reflexivity.
Qed.

(** C5. In every state the engine can reach, whatever ticks, drags and
    restarts led to it, at most one interval of the engine is active.
    There [animate_clock] leaves exactly the interval it schedules: the one
    [animation_timer] named before is cancelled, and after two calls in
    succession exactly one interval is active. *)
Theorem animate_clock_keeps_one_schedule m (p : TimerCanvas num * Browser num) :
  reachable m p ->
  size (timers (snd p)) <= 1 /\
  (let p1 := animate_clock (fst p) (snd p) in
   timers (snd p1) = {[ next_timer (snd p) ]} /\
   (forall id, animation_timer (fst p) = Some id -> id ∉ timers (snd p1)) /\
   let p2 := animate_clock (fst p1) (snd p1) in
   size (timers (snd p2)) = 1).
Proof.
  intros R. apply reachable_one_schedule in R. destruct p as [st w].
  cbn [fst snd]. pose proof R as [I J]. split.
  - destruct (animation_timer st) as [a|] eqn:A.
    + rewrite <- (size_singleton (C := gset nat) a). apply subseteq_size.
      intros i Hi. apply I in Hi. inversion Hi; subst. set_solver.
    + assert (timers w = ∅) as E.
      { apply set_eq. intros i. split; [|set_solver].
        intros Hi. apply I in Hi. discriminate. }
      rewrite E, size_empty. lia.
  - destruct (animate_clock_schedules st w R) as (T & A & N).
    pose proof (animate_clock_one_schedule st w R) as R1.
    destruct (animate_clock st w) as [st1 w1]. cbn [fst snd] in *.
    split; [exact T|]. split.
    + intros id Hid. apply J in Hid. rewrite T.
      intros Hin. apply elem_of_singleton in Hin. lia.
    + destruct (animate_clock_schedules st1 w1 R1) as (T2 & _ & _).
      rewrite T2. apply size_singleton.
Qed.

End ClaimsAnyArithmetic.

(** ** The claims *)

Section Claims.
Local Open Scope R_scope.

(** C1, as the code has it. In exact real arithmetic: for an input below
    zero [set_remaining_seconds] stores a value in [0, 3600) that differs
    from the input by whole hours and equals ((s % 3600) + 3600) % 3600; an
    input that is not below zero is stored as it is; a call with -10
    stores 3590 and one with -3700 stores 3500; the loop needs
    [hours_to_add s] iterations. In binary64, the arithmetic the program
    runs on, this holds up to rounding only: -10 and -3700 still give
    3590 and 3500, and 3700 is kept, but for an input so little below zero
    that adding 3600 to it rounds to 3600, such as -1e-13 (here
    [- frac 1 (10 ^ 13)], the double that literal denotes), 3600 is
    stored, which is not below 3600. *)
Theorem set_remaining_seconds_wraps_negative_inputs :
  (forall (s : R) (st : TimerCanvas R),
      exists st',
        set_remaining_seconds (S (hours_to_add s)) s st = Ok st' /\
        time_radians st' = seconds_to_radians (remaining_seconds st') /\
        (0 <= s -> remaining_seconds st' = s) /\
        (s < 0 ->
         0 <= remaining_seconds st' < 3600 /\
         (exists k : Z, remaining_seconds st' = s + 3600 * IZR k) /\
         remaining_seconds st' = normalized_spec s)) /\
  (forall st : TimerCanvas R,
      exists st', set_remaining_seconds 2 (-10) st = Ok st' /\
                  remaining_seconds st' = 3590) /\
  (forall st : TimerCanvas R,
      exists st', set_remaining_seconds 3 (-3700) st = Ok st' /\
                  remaining_seconds st' = 3500) /\
  (forall st : TimerCanvas float,
      (exists st', set_remaining_seconds 2 (-10)%float st = Ok st' /\
                   remaining_seconds st' = 3590%float) /\
      (exists st', set_remaining_seconds 3 (-3700)%float st = Ok st' /\
                   remaining_seconds st' = 3500%float) /\
      (exists st', set_remaining_seconds 1 3700%float st = Ok st' /\
                   remaining_seconds st' = 3700%float) /\
      (exists st',
          set_remaining_seconds 2 (PrimFloat.opp (frac 1 (10 ^ 13))) st
            = Ok st' /\
          remaining_seconds st' = 3600%float)) /\
  PrimFloat.ltb (PrimFloat.opp (frac 1 (10 ^ 13))) 0%float = true /\
  PrimFloat.ltb 3600%float 3600%float = false.
Proof.
  assert (G : forall (s : R) (st : TimerCanvas R),
             set_remaining_seconds (S (hours_to_add s)) s st =
             Ok (with_time (wrap_hours s) (seconds_to_radians (wrap_hours s)) st)).
  { intros s st. unfold set_remaining_seconds.
    rewrite add_hours_wraps. reflexivity. }
  split; [|split; [|split; [|split; [|split]]]].
  - intros s st. eexists. split; [apply G|]. cbn [remaining_seconds time_radians with_time].
    split; [reflexivity|]. split.
    + apply wrap_hours_nonneg.
    + intros L. destruct (wrap_hours_neg s L) as (W & _ & B).
      split; [exact B|]. split.
      * exists (Zceil (- s / 3600)). exact W.
      * symmetry. apply normalized_spec_neg, L.
  - intros st. eexists. split.
    + cbn [set_remaining_seconds add_hours]. unfold set_remaining_seconds.
      cbn [add_hours]. real_ops.
      rewrite (Rltb_lt (-10) 0), (Rltb_ge (-10 + 60 * 60) 0) by lra.
      reflexivity.
    + cbn. lra.
  - intros st. eexists. split.
    + unfold set_remaining_seconds. cbn [add_hours]. real_ops.
      rewrite (Rltb_lt (-3700) 0), (Rltb_lt (-3700 + 60 * 60) 0),
        (Rltb_ge (-3700 + 60 * 60 + 60 * 60) 0) by lra.
      reflexivity.
    + cbn. lra.
  - assert (A1 : add_hours 2 (-10)%float = Ok 3590%float)
      by (vm_compute; reflexivity).
    assert (A2 : add_hours 3 (-3700)%float = Ok 3500%float)
      by (vm_compute; reflexivity).
    assert (A3 : add_hours 1 3700%float = Ok 3700%float)
      by (vm_compute; reflexivity).
    assert (A4 : add_hours 2 (PrimFloat.opp (frac 1 (10 ^ 13)))
                 = Ok 3600%float)
      by (vm_compute; reflexivity).
    intros st. unfold set_remaining_seconds. rewrite A1, A2, A3, A4.
    repeat split; eexists; (split; [reflexivity|reflexivity]).
  - vm_compute. reflexivity.
  - vm_compute. reflexivity.
Qed.

(** C1 as stated fails above one hour: 3700 is stored as 3700, which is
    neither below 3600 nor the value 100 of the specification's formula. *)
Lemma set_remaining_seconds_keeps_3700 :
  exists st',
    set_remaining_seconds 1 3700 new_timer = Ok st' /\
    remaining_seconds st' = 3700 /\
    ~ remaining_seconds st' < 3600 /\
    normalized_spec 3700 = 100.
Proof.
  eexists. split.
  - unfold set_remaining_seconds. cbn [add_hours]. real_ops.
    rewrite (Rltb_ge 3700 0) by lra. reflexivity.
  - cbn [remaining_seconds with_time]. split; [reflexivity|]. split; [lra|].
    unfold normalized_spec.
    rewrite (Rrem_floor 3700 3600 1) by lra.
    rewrite (Rrem_floor _ 3600 1) by lra. lra.
Qed.

(** C6 as stated fails on the numerals: a full render draws 0, 5, ..., 55,
    the indices of the marks, and not 0, 1, ..., 11, the indices divided
    by 5. *)
Lemma render_clock_numerals_are_mark_indices :
  labels (snd (render_clock new_timer)) =
    [0; 5; 10; 15; 20; 25; 30; 35; 40; 45; 50; 55]%Z /\
  labels (snd (render_clock new_timer)) <>
    map (fun i => i / 5)%Z [0; 5; 10; 15; 20; 25; 30; 35; 40; 45; 50; 55]%Z.
Proof.
  rewrite labels_render_clock. cbn [needs_full_render new_timer].
  split; [reflexivity|discriminate].
Qed.

(** C4. In real arithmetic the two conversions are inverse to each other,
    [seconds_to_radians s] is (s / 60) * (PI / 30), and 3600 seconds are a
    full turn. In binary64 the round trip is within 1e-12 of its input at
    the sample inputs 120, 0.1 and 3600, and it is not exact: 3600 comes
    back as 3599.9999999999995. *)
Theorem seconds_radians_mutual_inverses :
  (forall s : R, radians_to_seconds (seconds_to_radians s) = s) /\
  (forall r : R, seconds_to_radians (radians_to_seconds r) = r) /\
  (forall s : R, seconds_to_radians s = (s / 60) * (PI / 30)) /\
  seconds_to_radians 3600 = 2 * PI /\
  radians_to_seconds (2 * PI) = 3600 /\
  (let round_trip (s : float) := radians_to_seconds (seconds_to_radians s) in
   let close (a b : float) :=
     PrimFloat.leb (PrimFloat.abs (PrimFloat.sub a b)) (frac 1 (10 ^ 12)) in
   close (round_trip (lit 120)) (lit 120) = true /\
   close (round_trip (frac 1 10)) (frac 1 10) = true /\
   close (round_trip (lit 3600)) (lit 3600) = true /\
   PrimFloat.eqb (round_trip (lit 3600)) (lit 3600) = false).
Proof.
  pose proof PI_neq0 as P.
  repeat split;
    try (intros; unfold radians_to_seconds, seconds_to_radians; real_ops;
         field; exact P);
    vm_compute; reflexivity.
Qed.

(** C10, as the code has it. In real arithmetic the loop of
    [set_remaining_seconds] ends for every input, after [hours_to_add s]
    additions. In binary64 it ends for the inputs -10 and -3700 and passes
    NaN through, and it does not end for minus infinity nor for a finite
    input as large as -1e20, where adding 3600 rounds back to the input. *)
Theorem add_hours_termination :
  (forall s : R, add_hours (S (hours_to_add s)) s = Ok (wrap_hours s)) /\
  (forall (s : R) fuel,
      (hours_to_add s < fuel)%nat -> add_hours fuel s = Ok (wrap_hours s)) /\
  add_hours 2 (-10)%float = Ok 3590%float /\
  add_hours 3 (-3700)%float = Ok 3500%float /\
  (forall fuel, add_hours (S fuel) nan = Ok nan) /\
  (forall fuel, add_hours fuel neg_infinity = Timeout) /\
  (forall fuel, add_hours fuel (-1e20)%float = Timeout) /\
  PrimFloat.is_finite (-1e20)%float = true.
Proof.
  split; [exact add_hours_wraps|]. split; [exact add_hours_total|].
  split; [reflexivity|]. split; [reflexivity|].
  split; [intros fuel; reflexivity|].
  split; [|split; [|reflexivity]].
  - induction fuel as [|fuel IH]; [reflexivity|].
    cbn [add_hours].
    change (neg_infinity <? lit 0)%num with true.
    change (neg_infinity + lit 60 * lit 60)%num with neg_infinity.
    exact IH.
  - induction fuel as [|fuel IH]; [reflexivity|].
    cbn [add_hours].
    change ((-1e20)%float <? lit 0)%num with true.
    change ((-1e20)%float + lit 60 * lit 60)%num with (-1e20)%float.
    exact IH.
Qed.

(** C10 as stated fails in the arithmetic the program runs on: -1e20 is a
    finite number, adding 3600 to it gives -1e20 again, and the loop never
    ends. *)
Lemma add_hours_stalls_on_large_finite_input :
  PrimFloat.is_finite (-1e20)%float = true /\
  ((-1e20)%float + lit 60 * lit 60)%num = (-1e20)%float /\
  (forall fuel, add_hours fuel (-1e20)%float = Timeout).
Proof.
  split; [reflexivity|]. split; [reflexivity|].
  induction fuel as [|fuel IH]; [reflexivity|].
  cbn [add_hours].
  change ((-1e20)%float <? lit 0)%num with true.
  change ((-1e20)%float + lit 60 * lit 60)%num with (-1e20)%float.
  exact IH.
Qed.

(** A state C5 speaks of: the wrapper just constructed, which has run
    [setup]. *)
Lemma animate_clock_keeps_one_schedule_booted :
  let p := setup 0 new_timer fresh_browser in
  (size (timers (snd p)) <= 1)%nat /\
  (let p1 := animate_clock (fst p) (snd p) in
   timers (snd p1) = {[ next_timer (snd p) ]} /\
   (forall id, animation_timer (fst p) = Some id -> id ∉ timers (snd p1)) /\
   let p2 := animate_clock (fst p1) (snd p1) in
   size (timers (snd p2)) = 1%nat).
Proof.
  apply (animate_clock_keeps_one_schedule Wrapper).
  apply (reach_boot Wrapper true 0 300 150 300 150). reflexivity.
Defined.

Lemma finds_resize_after_render now (st : TimerCanvas R) :
  finds_resize (fst (render now st)) = false.
Proof.
  destruct (render_spec now st) as (F & _ & _). cbv zeta in F. rewrite F.
  destruct (finds_resize st) eqn:E.
  - unfold finds_resize. cbn. rewrite Rneqb_eq. reflexivity.
  - exact E.
Qed.

(** C7, as the code has it. The flag is true after construction. A render
    finds the canvas resized when its width differs from its height and,
    besides, its width or its height differs from the client's: then it
    sets both to the client width, puts the center at half of it, clears
    the surface and draws the numerals. Otherwise it leaves dimensions and
    center alone, clears nothing, and draws the numerals only when the
    flag was set. Either way the flag is false afterwards, and the next
    render draws no numerals. *)
Theorem render_full_after_resize (now now' : R) (st : TimerCanvas R) :
  let st1 := fst (render now st) in
  let ops := snd (render now st) in
  (forall t w h cw ch : R,
      exists st0, constructor true t w h cw ch = Ok st0 /\
                  needs_full_render st0 = true) /\
  finds_resize st =
    Rneqb (width st) (height st) &&
    (Rneqb (width st) (clientWidth st) || Rneqb (height st) (clientHeight st)) /\
  (if finds_resize st
   then width st1 = clientWidth st /\ height st1 = clientWidth st /\
        center st1 = Coordinate.mk (clientWidth st / 2) (clientWidth st / 2) /\
        clears ops = true
   else width st1 = width st /\ height st1 = height st /\
        center st1 = center st /\
        clears ops = false) /\
  labels ops =
    (if finds_resize st || needs_full_render st then minute_labels else []) /\
  needs_full_render st1 = false /\
  labels (snd (render now' st1)) = [].
Proof.
  cbv zeta. destruct (render_spec now st) as (F & L & C). cbv zeta in F.
  split; [intros; eexists; split; reflexivity|].
  split; [reflexivity|].
  split; [|split; [exact L|split]].
  - rewrite F, C. destruct (finds_resize st); repeat split; reflexivity.
  - rewrite F. reflexivity.
  - destruct (render_spec now' (fst (render now st))) as (_ & L' & _).
    rewrite L', finds_resize_after_render.
    rewrite F. reflexivity.
Qed.

(** C7 as stated fails on a canvas that already has the client's size: 300
    by 150 in a client box of 300 by 150, in the state its first render
    leaves. The next render finds the width different from the height,
    and neither moves the center, nor clears the surface, nor draws the
    numerals. *)
Lemma render_keeps_unsquare_canvas :
  fst (render 0 new_timer) = rendered_timer /\
  Rneqb (width rendered_timer) (height rendered_timer) = true /\
  center (fst (render 200 rendered_timer)) = Coordinate.mk 0 0 /\
  clears (snd (render 200 rendered_timer)) = false /\
  labels (snd (render 200 rendered_timer)) = [].
Proof.
  assert (finds_resize new_timer = false) as E0.
  { unfold finds_resize. cbn. rewrite !Rneqb_eq, andb_false_r. reflexivity. }
  assert (finds_resize rendered_timer = false) as E by exact E0.
  destruct (render_spec 0 new_timer) as (F0 & _). cbv zeta in F0.
  destruct (render_spec 200 rendered_timer) as (F & L & C). cbv zeta in F.
  rewrite F0, F, L, C, E0, E. cbn.
  split; [reflexivity|].
  split; [apply Rneqb_neq; lra|]. repeat split; reflexivity.
Qed.

(** With enough fuel every callback returns: nothing the engine does in
    real arithmetic loops forever.  The one callback that does not return
    a state throws, on a touch event without touches. *)
Lemma dispatch_returns m e (st : TimerCanvas R) (w : Browser R) :
  exists n, forall fuel, (n <= fuel)%nat ->
    (exists p, dispatch m fuel e st w = Ok p) \/
    dispatch m fuel e st w = Throw TypeError.
Proof.
  assert (MM : forall now event, exists n, forall fuel, (n <= fuel)%nat ->
             exists p, mousemove_handler fuel now event st w = Ok p).
  { intros now event.
    destruct (drag_starting_angle st) as [a|] eqn:A,
             (drag_starting_remaining_seconds st) as [s0|] eqn:B.
    2-4: exists 0%nat; intros fuel _;
         edestruct (mousemove_handler_result fuel now event st) as (p & E & _);
         [rewrite A, ?B; reflexivity|exists p; exact E].
    exists (S (hours_to_add
                 (s0 + radians_to_seconds (a - pointer_angle (center st) event)))).
    intros fuel L.
    edestruct (mousemove_handler_result fuel now event st) as (p & E & _).
    - rewrite A, B. apply set_remaining_seconds_real.
      real_ops. lia.
    - exists p; exact E. }
  destruct e; cbn [dispatch].
  - exists 0%nat. intros fuel _. left. destruct m; eexists; reflexivity.
  - exists 1%nat. intros [|fuel] L; [lia|]. left.
    destruct (decide _); [|eexists; reflexivity].
    rewrite interval_callback_real. cbv zeta.
    destruct (Rlt_dec _ 0); [destruct m|]; eexists; reflexivity.
  - exists 0%nat. intros fuel _. left. eexists; reflexivity.
  - destruct (MM now event) as [n Hn]. exists n. intros fuel L. left.
    destruct (mousemove_on w); [apply Hn, L|eexists; reflexivity].
  - exists 0%nat. intros fuel _. left. eexists; reflexivity.
  - exists 0%nat. intros fuel _. left. eexists; reflexivity.
  - destruct touches as [|event touches].
    + exists 0%nat. intros fuel _.
      destruct (touchmove_on w); [right; reflexivity|left; eexists; reflexivity].
    + destruct (MM now event) as [n Hn]. exists n. intros fuel L. left.
      destruct (touchmove_on w); [apply Hn, L|eexists; reflexivity].
  - exists 0%nat. intros fuel _. left. eexists; reflexivity.
  - exists 0%nat. intros fuel _. left.
    destruct (listening w); [destruct (setup_resolution st)|]; eexists; reflexivity.
  - exists 0%nat. intros fuel _. left. eexists; reflexivity.
Qed.

(** C8. In every state the engine can reach, that is after construction and
    after every callback, whatever it did to the remaining time, the
    remaining seconds are not negative and the angle is the one
    [seconds_to_radians] gives for them. *)
Theorem remaining_seconds_invariant m (p : TimerCanvas R * Browser R) :
  reachable m p ->
  0 <= remaining_seconds (fst p) /\
  time_radians (fst p) = seconds_to_radians (remaining_seconds (fst p)).
Proof.
  induction 1 as [context now a b c d p B | fuel e st w p R IH D].
  - eapply boot_time_ok, B.
  - eapply dispatch_time_ok; [exact IH|exact D].
Qed.

(** A state C8 speaks of: the wrapper after its first tick, 200 ms after
    its construction. *)
Lemma remaining_seconds_invariant_after_first_tick :
  let p0 := setup 0 new_timer fresh_browser in
  exists p,
    dispatch Wrapper 1 (IntervalFires 1 200) (fst p0) (snd p0) = Ok p /\
    0 <= remaining_seconds (fst p) /\
    time_radians (fst p) = seconds_to_radians (remaining_seconds (fst p)).
Proof.
  cbv zeta.
  destruct (dispatch Wrapper 1 (IntervalFires 1 200)
              (fst (setup 0 new_timer fresh_browser))
              (snd (setup 0 new_timer fresh_browser))) as [p| |] eqn:D.
  - exists p. split; [reflexivity|].
    apply (remaining_seconds_invariant Wrapper).
    apply (reach_step Wrapper 1 (IntervalFires 1 200)
             (fst (setup 0 new_timer fresh_browser))
             (snd (setup 0 new_timer fresh_browser))); [|exact D].
    apply (reach_boot Wrapper true 0 300 150 300 150).
    cbn [boot constructor bind]. destruct (setup _ _ _). reflexivity.
  - exfalso. cbn [dispatch] in D. destruct (decide _); [|discriminate].
    rewrite interval_callback_real in D. cbv zeta in D.
    destruct (Rlt_dec _ 0); discriminate.
  - exfalso. cbn [dispatch] in D. destruct (decide _); [|discriminate].
    rewrite interval_callback_real in D. cbv zeta in D.
    destruct (Rlt_dec _ 0); discriminate.
Defined.

(** The part of C2 the second mounting meets: a tick of the active
    interval either ends the countdown (the interval is cancelled, the
    time is set to zero and a second render shows it) or takes the elapsed
    time off and leaves the interval running. *)
Lemma tick_in_wrapper fuel now (st : TimerCanvas R) (w : Browser R) id :
  animation_timer st = Some id -> timers w = {[ id ]} ->
  let elapsed := (now - prev_render_ms st) / 1000 in
  exists st' w',
    interval_callback Wrapper (S fuel) now st w = Ok (st', w') /\
    (remaining_seconds st - elapsed < 0 ->
     timers w' = ∅ /\ remaining_seconds st' = 0 /\ time_radians st' = 0 /\
     exists zero, remaining_seconds zero = 0 /\ time_radians zero = 0 /\
       drawn w' = drawn w ++ snd (render now st) ++ snd (render now zero)) /\
    (0 <= remaining_seconds st - elapsed ->
     timers w' = timers w /\
     remaining_seconds st' = remaining_seconds st - elapsed /\
     time_radians st' = seconds_to_radians (remaining_seconds st') /\
     drawn w' = drawn w ++ snd (render now st)).
Proof.
  intros A T. cbv zeta. rewrite interval_callback_real. cbv zeta.
  assert (Z : seconds_to_radians 0 = 0).
  { unfold seconds_to_radians. real_ops. field. }
  destruct (Rlt_dec _ 0) as [L|L]; do 2 eexists; (split; [reflexivity|]).
  - split; [intros _|lra].
    pose proof (render_keeps now
                  (with_time 0 (seconds_to_radians 0) (fst (render now st)))) as K.
    cbv zeta in K. destruct K as (Kr & Kt & _).
    rewrite Kr, Kt, A. cbn. rewrite T.
    split; [apply difference_diag_L|]. split; [reflexivity|]. split; [exact Z|].
    eexists. split; [|split; [|rewrite <- app_assoc; reflexivity]].
    + reflexivity.
    + exact Z.
  - split; [lra|intros _]. cbn. repeat split; reflexivity.
Qed.

(** C2 on [timer.ts]: the tick that ends the countdown cancels the interval
    and sets the time to zero, and renders once, before that; the wedge on
    the canvas is that of the tenth of a second that was left.  The second
    mounting, at the same input, renders the zero state after it. *)
Theorem tick_at_zero_renders_once_in_custom_element :
  let st := square_timer (1 / 10) in
  exists st' w',
    interval_callback CustomElement 1 200 st ticking = Ok (st', w') /\
    timers w' = ∅ /\ remaining_seconds st' = 0 /\ time_radians st' = 0 /\
    drawn w' = snd (render 200 st) /\
    In (Arc 150 150 (150 * (1 - 2 / 10))
          (3 / 2 * PI - seconds_to_radians (1 / 10)) (3 / 2 * PI))
       (drawn w') /\
    exists st'' w'',
      interval_callback Wrapper 1 200 st ticking = Ok (st'', w'') /\
      drawn w'' = snd (render 200 st) ++ snd (render 200 st').
Proof.
  cbv zeta. rewrite !interval_callback_real. cbv zeta.
  destruct (Rlt_dec _ 0) as [L|L]; [|exfalso; apply L; cbn; lra].
  do 2 eexists. split; [reflexivity|].
  split; [cbn; apply difference_diag_L|]. split; [reflexivity|].
  split; [cbn; unfold seconds_to_radians; real_ops; field|].
  split; [reflexivity|]. split.
  - cbn [drawn draw clearTimeout with_timers app].
    unfold render. cbn [width height square_timer]. real_ops.
    rewrite Rneqb_eq. cbv zeta.
    destruct (render_clock (square_timer (1 / 10))) as [st2 ops5].
    cbn [snd app]. do 5 right. apply in_or_app. right.
    apply in_or_app. left. do 2 right. left. reflexivity.
  - do 2 eexists. split; [reflexivity|]. reflexivity.
Qed.

(** C3. During a drag, a move at the angle [a] sets the remaining time to
    the zero-crossing normalization of the seconds at the origin plus
    [radians_to_seconds] of the origin's angle minus [a]. Starting from 60
    seconds, the first move records its angle and the 60 seconds and
    changes no time; a second move at that angle minus PI / 30 gives 120
    seconds. A drag of 2 PI is 3600 units. *)
Theorem drag_sets_remaining_seconds :
  (forall n now event (st : TimerCanvas R) (w : Browser R) a0 s0,
      let a := pointer_angle (center st) event in
      let x := s0 + radians_to_seconds (a0 - a) in
      exists p,
        mousemove_handler (S (hours_to_add x + n)) now event
          (with_drag (Some a0) (Some s0) st) w = Ok p /\
        remaining_seconds (fst p) = wrap_hours x /\
        time_radians (fst p) = seconds_to_radians (wrap_hours x) /\
        drag_starting_angle (fst p) = Some a0 /\
        drag_starting_remaining_seconds (fst p) = Some s0) /\
  (forall fuel now now' event event' (st : TimerCanvas R) (w : Browser R),
      let st0 := with_drag None None (with_time 60 (seconds_to_radians 60) st) in
      let theta0 := pointer_angle (center st0) event in
      exists p1,
        mousemove_handler (S fuel) now event st0 w = Ok p1 /\
        remaining_seconds (fst p1) = 60 /\
        time_radians (fst p1) = seconds_to_radians 60 /\
        drag_starting_angle (fst p1) = Some theta0 /\
        drag_starting_remaining_seconds (fst p1) = Some 60 /\
        center (fst p1) = center (fst (render now st0)) /\
        (pointer_angle (center (fst p1)) event' = theta0 - PI / 30 ->
         exists p2,
           mousemove_handler (S fuel) now' event' (fst p1) (snd p1) = Ok p2 /\
           remaining_seconds (fst p2) = 120)) /\
  radians_to_seconds (PI / 30) = 60 /\
  radians_to_seconds (2 * PI) = 3600.
Proof.
  split; [|split; [|split]].
  - intros n now event st w a0 s0. cbv zeta.
    edestruct (mousemove_handler_result
                 (S (hours_to_add
                       (s0 + radians_to_seconds
                               (a0 - pointer_angle (center st) event)) + n))
                 now event (with_drag (Some a0) (Some s0) st))
      as (p & E & _ & Pr & Pt & Pa & Ps).
    + cbn [drag_starting_angle drag_starting_remaining_seconds with_drag center].
      apply set_remaining_seconds_real. real_ops. lia.
    + exists p. split; [exact E|]. rewrite Pr, Pt, Pa, Ps.
      repeat split; reflexivity.
  - intros fuel now now' event event' st w. cbv zeta.
    set (st0 := with_drag None None (with_time 60 (seconds_to_radians 60) st)).
    edestruct (mousemove_handler_result (S fuel) now event st0)
      as (p1 & E & Ep & Pr & Pt & Pa & Ps); [reflexivity|].
    exists p1. split; [exact E|]. rewrite Pr, Pt, Pa, Ps.
    do 4 (split; [reflexivity|]). split.
    + rewrite Ep. destruct (animate_clock_state
                             (fst (render now (with_drag
                                (Some (pointer_angle (center st0) event))
                                (Some (remaining_seconds st0)) st0)))
                             (draw (snd (render now (with_drag
                                (Some (pointer_angle (center st0) event))
                                (Some (remaining_seconds st0)) st0))) w))
        as [A _].
      rewrite A. cbn [center with_animation_timer].
      apply center_render_with_drag.
    + intros Ha.
      edestruct (mousemove_handler_result (S fuel) now' event' (fst p1))
        as (p2 & E2 & _ & Pr2 & _).
      * rewrite Pa, Ps, Ha. cbn [remaining_seconds st0 with_drag with_time].
        apply set_remaining_seconds_real.
        real_ops.
        replace (pointer_angle (center st0) event -
                 (pointer_angle (center st0) event - PI / 30)) with (PI / 30)
          by lra.
        rewrite radians_to_seconds_unit, hours_to_add_nonneg by lra. lia.
      * exists p2. split; [exact E2|]. rewrite Pr2.
        cbn [remaining_seconds with_time]. real_ops.
        replace (pointer_angle (center st0) event -
                 (pointer_angle (center st0) event - PI / 30)) with (PI / 30)
          by lra.
        rewrite radians_to_seconds_unit, wrap_hours_nonneg by lra. lra.
  - exact radians_to_seconds_unit.
  - unfold radians_to_seconds. real_ops. field. exact PI_neq0.
Qed.

(** The drag of C3 on a square canvas of side 300: the pointer starts at
    the angle PI / 30 + PI / 2 and moves to PI / 2. *)
Lemma drag_sets_remaining_seconds_one_unit :
  let st := square_timer 60 in
  let event := pointer_at 151 (150 + tan (PI / 30)) in
  let event' := pointer_at 151 150 in
  exists p1 p2,
    mousemove_handler 1 0 event st ticking = Ok p1 /\
    remaining_seconds (fst p1) = 60 /\
    drag_starting_angle (fst p1) = Some (PI / 30 + 1 / 2 * PI) /\
    mousemove_handler 1 200 event' (fst p1) (snd p1) = Ok p2 /\
    remaining_seconds (fst p2) = 120.
Proof.
  cbv zeta. pose proof PI_RGT_0 as P.
  destruct drag_sets_remaining_seconds as (_ & B & _).
  destruct (B 0%nat 0 200 (pointer_at 151 (150 + tan (PI / 30)))
              (pointer_at 151 150) (square_timer 60) ticking)
    as (p1 & E1 & R1 & _ & A1 & _ & C1 & Next).
  change (with_drag None None
            (with_time 60 (seconds_to_radians 60) (square_timer 60)))
    with (square_timer 60) in *.
  assert (T0 : pointer_angle (center (square_timer 60))
                 (pointer_at 151 (150 + tan (PI / 30))) = PI / 30 + 1 / 2 * PI).
  { apply pointer_angle_real; [|lra].
    cbn [pageX pageY rect_left rect_top pointer_at center square_timer
         Coordinate.x Coordinate.y]. real_ops.
    rewrite Ratan2_right by lra.
    match goal with
    | |- atan ?q = _ => replace q with (tan (PI / 30)) by (field; lra)
    end.
    apply atan_tan. lra. }
  assert (C0 : center (fst p1) = Coordinate.mk 150 150).
  { rewrite C1. destruct (render_spec 0 (square_timer 60)) as (F & _).
    cbv zeta in F. rewrite F. unfold finds_resize. cbn. rewrite Rneqb_eq.
    reflexivity. }
  assert (T1 : pointer_angle (center (fst p1)) (pointer_at 151 150) = 0 + 1 / 2 * PI).
  { rewrite C0. apply pointer_angle_real; [|lra].
    cbn [pageX pageY rect_left rect_top pointer_at Coordinate.x Coordinate.y].
    real_ops.
    rewrite Ratan2_right by lra.
    match goal with
    | |- atan ?q = _ => replace q with 0 by (field; lra)
    end.
    apply atan_0. }
  destruct Next as (p2 & E2 & R2); [rewrite T1, T0; lra|].
  exists p1, p2. rewrite <- T0. repeat split; assumption.
Defined.

(** C9, as the code has it. The handler has no guard against a move event
    without a position. In the middle of a gesture such an event sets the
    remaining seconds and the angle to NaN. As the first move of a gesture
    it leaves both as they are and records NaN as the angle of the origin,
    and then the next move, with a position or without, sets them to NaN.
    Only a touch event with no touch at all changes nothing: the handler
    throws before it reads the state. *)
Theorem mousemove_handler_without_position
    fuel (now : option R) (st : TimerCanvas (option R)) (w : Browser (option R))
    (a0 s0 : option R) (event : PointerEvent (option R)) :
  (exists p,
      mousemove_handler (S fuel) now no_position
        (with_drag (Some a0) (Some s0) st) w = Ok p /\
      remaining_seconds (fst p) = None /\ time_radians (fst p) = None) /\
  (exists p,
      mousemove_handler fuel now no_position (with_drag None None st) w = Ok p /\
      remaining_seconds (fst p) = remaining_seconds st /\
      time_radians (fst p) = time_radians st /\
      drag_starting_angle (fst p) = Some None /\
      drag_starting_remaining_seconds (fst p) = Some (remaining_seconds st)) /\
  (exists p,
      mousemove_handler (S fuel) now event
        (with_drag (Some None) (Some s0) st) w = Ok p /\
      remaining_seconds (fst p) = None /\ time_radians (fst p) = None) /\
  touchmove_handler fuel now [] st w = Throw TypeError.
Proof.
  split; [|split; [|split; [|reflexivity]]].
  - destruct a0 as [a0|], s0 as [s0|];
      match goal with
      | |- exists p, mousemove_handler ?f ?t ?e ?s ?b = Ok p /\ _ =>
          edestruct (mousemove_handler_result f t e s) as (p & E & _ & Pr & Pt & _);
          [reflexivity|];
          exists p; split; [exact E|]; rewrite Pr, Pt; split; reflexivity
      end.
  - edestruct (mousemove_handler_result fuel now no_position
                 (with_drag None None st))
      as (p & E & _ & Pr & Pt & Pa & Ps); [reflexivity|].
    exists p. split; [exact E|]. rewrite Pr, Pt, Pa, Ps.
    repeat split; reflexivity.
  - destruct s0 as [s0|];
      match goal with
      | |- exists p, mousemove_handler ?f ?t ?e ?s ?b = Ok p /\ _ =>
          edestruct (mousemove_handler_result f t e s) as (p & E & _ & Pr & Pt & _);
          [reflexivity|];
          exists p; split; [exact E|]; rewrite Pr, Pt; split; reflexivity
      end.
Qed.

(** C9 as stated fails: in the middle of a drag that started with 60
    seconds at the angle 0, a move event without a position leaves NaN in
    the remaining seconds and in the angle. *)
Lemma mousemove_without_position_poisons_time :
  let st := with_drag (Some (Some 0)) (Some (Some 60))
              (with_NaN (square_timer 60)) in
  exists p,
    mousemove_handler 1 (Some 200) no_position st ticking_NaN = Ok p /\
    remaining_seconds st = Some 60 /\
    remaining_seconds (fst p) = None /\
    time_radians (fst p) = None.
Proof.
  cbv zeta.
  match goal with
  | |- exists p, mousemove_handler ?f ?t ?e ?s ?b = Ok p /\ _ =>
      edestruct (mousemove_handler_result f t e s) as (p & E & _ & Pr & Pt & _);
      [reflexivity|];
      exists p; split; [exact E|]; rewrite Pr, Pt; repeat split; reflexivity
  end.
Qed.

End Claims.

(** ** Further properties of the engine *)

Section MarksAnyArithmetic.
Context {num : Type} `{Number num} `{MathLib num}.
Local Open Scope num_scope.

(** The loop of [render_clock], mark by mark: mark [k] is drawn after [k]
    subtractions from the first angle. *)
Lemma render_marks_unroll full d p n i deg :
  render_marks full d p n i deg =
  flat_map (fun k => render_mark full d (i + Z.of_nat k)
                       (Nat.iter k (fun a => a - p) deg))
           (seq 0 n).
Proof.
  revert i deg. induction n as [|n IH]; intros i deg; [reflexivity|].
  cbn [render_marks seq flat_map Nat.iter]. rewrite Z.add_0_r. f_equal.
  rewrite IH, <- seq_shift, !flat_map_concat_map, map_map.
  f_equal. apply map_ext. intros k.
  rewrite Nat.iter_succ_r.
  replace (i + 1 + Z.of_nat k)%Z with (i + Z.of_nat (S k))%Z by lia.
  reflexivity.
Qed.

(** When no resize is found, a render draws the background disc, sets the
    font, draws the wedge and the hub, then the marks. *)
Lemma render_ops_without_resize now (st : TimerCanvas num) :
  finds_resize st = false ->
  snd (render now st) =
  [BeginPath;
   Arc (Coordinate.x (center st)) (Coordinate.y (center st))
     (Coordinate.y (center st) * frac 81 100) (lit 0) (lit 2 * Math_PI);
   FillStyle white; Fill; ClosePath] ++
  setup_font st ++ render_fill st ++ snd (render_clock st).
Proof.
  unfold finds_resize, render, setup_resolution.
  destruct (neq (width st) (height st)); cbn [andb].
  - intros E. rewrite E. reflexivity.
  - intros _. reflexivity.
Qed.

End MarksAnyArithmetic.

Section Extras.
Local Open Scope R_scope.

(** X1. [expand_to(max)] scales from the range [-1, 1] to [0, max], as its
    comment says: with max not negative, a coordinate with both components
    in [-1, 1] comes out with both in [0, max]; (-1, -1) goes to (0, 0),
    (0, 0) to the middle and (1, 1) to (max, max). *)
Theorem expand_to_maps_unit_range (max : R) (c : Coordinate.t R) :
  0 <= max ->
  -1 <= Coordinate.x c <= 1 -> -1 <= Coordinate.y c <= 1 ->
  0 <= Coordinate.x (Coordinate.expand_to max c) <= max /\
  0 <= Coordinate.y (Coordinate.expand_to max c) <= max /\
  Coordinate.expand_to max (Coordinate.mk (-1) (-1)) = Coordinate.mk 0 0 /\
  Coordinate.expand_to max (Coordinate.mk 0 0) =
    Coordinate.mk (max / 2) (max / 2) /\
  Coordinate.expand_to max (Coordinate.mk 1 1) = Coordinate.mk max max.
Proof.
  intros M X Y. destruct c as [x y].
  unfold Coordinate.expand_to, Coordinate.scale, Coordinate.translate, frac.
  cbn [Coordinate.x Coordinate.y] in *. real_ops.
  repeat split; try nra; f_equal; field.
Qed.

(** The point of the unit circle straight above the middle, for a canvas
    of side 300. *)
Lemma expand_to_maps_unit_range_on_a_mark :
  0 <= Coordinate.x (Coordinate.expand_to 300 (Coordinate.mk 0 (-1))) <= 300 /\
  0 <= Coordinate.y (Coordinate.expand_to 300 (Coordinate.mk 0 (-1))) <= 300 /\
  Coordinate.expand_to 300 (Coordinate.mk (-1) (-1)) = Coordinate.mk 0 0 /\
  Coordinate.expand_to 300 (Coordinate.mk 0 0) =
    Coordinate.mk (300 / 2) (300 / 2) /\
  Coordinate.expand_to 300 (Coordinate.mk 1 1) = Coordinate.mk 300 300.
Proof.
  apply (expand_to_maps_unit_range 300 (Coordinate.mk 0 (-1)));
    cbn [Coordinate.x Coordinate.y]; lra.
Defined.

(** X2. A mark of the clock face is a radial segment about the middle of a
    square of side [d]: it runs from the radius 2/5 d to the radius 7/20 d
    in the direction of its angle, and its numeral, when drawn, is
    anchored at the radius 9/20 d in the same direction. *)
Theorem render_mark_is_radial full (d : R) (i : Z) (deg : R) :
  render_mark full d i deg =
    (if full && (i mod 5 =? 0)%Z
     then [FillText i (d / 2 + 9 / 20 * d * cos deg)
                      (d / 2 + 9 / 20 * d * sin deg)]
     else []) ++
    [BeginPath;
     LineWidth (if (i mod 5 =? 0)%Z then 5 else 1);
     MoveTo (d / 2 + 2 / 5 * d * cos deg) (d / 2 + 2 / 5 * d * sin deg);
     LineTo (d / 2 + 7 / 20 * d * cos deg) (d / 2 + 7 / 20 * d * sin deg);
     Stroke; ClosePath] /\
  sq_dist (d / 2 + 2 / 5 * d * cos deg) (d / 2 + 2 / 5 * d * sin deg)
          (d / 2) (d / 2) = (2 / 5 * d) * (2 / 5 * d) /\
  sq_dist (d / 2 + 7 / 20 * d * cos deg) (d / 2 + 7 / 20 * d * sin deg)
          (d / 2) (d / 2) = (7 / 20 * d) * (7 / 20 * d) /\
  sq_dist (d / 2 + 9 / 20 * d * cos deg) (d / 2 + 9 / 20 * d * sin deg)
          (d / 2) (d / 2) = (9 / 20 * d) * (9 / 20 * d).
Proof.
  pose proof (sin2_cos2 deg) as SC. unfold Rsqr in SC.
  split; [|unfold sq_dist; repeat split; nra].
  unfold render_mark, Coordinate.expand_to, Coordinate.scale,
    Coordinate.translate, frac.
  cbv zeta. cbn [Coordinate.x Coordinate.y]. real_ops.
  rewrite Z.div_mul by lia.
  destruct (full && (i mod 5 =? 0)%Z); cbn [app];
    repeat (f_equal; try field).
Qed.

Lemma iter_subtract (k : nat) (p deg : R) :
  Nat.iter k (fun a => a - p) deg = deg - INR k * p.
Proof.
  induction k as [|k IH]; [cbn; lra|].
  rewrite Nat.iter_succ, IH, S_INR. lra.
Qed.

Lemma mark_angle_plus_turn (k : nat) :
  3 / 2 * PI - seconds_to_radians (60 * INR k) = mark_angle k + 2 * PI.
Proof.
  unfold mark_angle, seconds_to_radians. real_ops. field.
Qed.

(** X3. The loop of [render_clock] draws mark [k] at the angle
    -PI/2 - k * (2 PI / 60): mark 0 straight above the middle, mark 15 to
    its left. The edge of the wedge that [render_fill] draws for [k]
    minutes points in the direction of mark [k]. *)
Theorem render_clock_marks_follow_the_wedge (st : TimerCanvas R) :
  snd (render_clock st) =
    [FillStyle black] ++
    flat_map (fun k => render_mark (needs_full_render st) (height st)
                         (Z.of_nat k) (mark_angle k))
             (seq 0 60) ++
    [ClosePath] /\
  nth 2 (render_fill st) Fill =
    Arc (Coordinate.x (center st)) (Coordinate.y (center st))
      (Coordinate.y (center st) * (1 - 2 / 10))
      (3 / 2 * PI - time_radians st) (3 / 2 * PI) /\
  (forall k : nat,
      cos (3 / 2 * PI - seconds_to_radians (60 * INR k)) = cos (mark_angle k) /\
      sin (3 / 2 * PI - seconds_to_radians (60 * INR k)) = sin (mark_angle k)) /\
  (cos (mark_angle 0) = 0 /\ sin (mark_angle 0) = -1) /\
  (cos (mark_angle 15) = -1 /\ sin (mark_angle 15) = 0).
Proof.
  split; [|split; [reflexivity|split; [|split]]].
  - unfold render_clock. cbv zeta. cbn [snd]. f_equal. f_equal.
    rewrite render_marks_unroll.
    rewrite !flat_map_concat_map. f_equal. apply map_ext. intros k.
    rewrite iter_subtract. reflexivity.
  - intros k. rewrite mark_angle_plus_turn.
    rewrite cos_plus, sin_plus, cos_2PI, sin_2PI. split; lra.
  - unfold mark_angle. cbn [INR].
    replace (- PI / 2 - 0 * (2 * PI / 60)) with (- (PI / 2)) by lra.
    rewrite cos_neg, sin_neg, cos_PI2, sin_PI2. split; lra.
  - unfold mark_angle.
    replace (- PI / 2 - INR 15 * (2 * PI / 60)) with (- PI)
      by (replace (INR 15) with 15 by (cbn; lra); lra).
    rewrite cos_neg, sin_neg, cos_PI, sin_PI. split; lra.
Qed.

(** *** The angle of the pointer *)

Lemma Ratan2_bounds y x : - PI < Ratan2 y x <= PI.
Proof.
  pose proof PI_RGT_0 as P. pose proof (atan_bound (y / x)) as B.
  unfold Ratan2.
  destruct (Rlt_dec 0 x) as [X|X]; [lra|].
  destruct (Rlt_dec x 0) as [X'|X'].
  - assert (/ x < 0) as I by (apply Rinv_neg; exact X').
    destruct (Rle_dec 0 y) as [Y|Y].
    + assert (y / x <= 0) as Q by (unfold Rdiv; nra).
      assert (atan (y / x) <= 0) as A.
      { destruct Q as [Q|Q]; [|rewrite Q, atan_0; lra].
        pose proof (atan_increasing _ _ Q) as A. rewrite atan_0 in A. lra. }
      lra.
    + assert (0 < y / x) as Q by (unfold Rdiv; nra).
      pose proof (atan_increasing _ _ Q) as A. rewrite atan_0 in A. lra.
  - destruct (Rlt_dec 0 y); [lra|]. destruct (Rlt_dec y 0); lra.
Qed.

(** The handler turns the angle of [Math.atan2] by a quarter and brings it
    back into one turn. *)
Lemma pointer_angle_atan2 (c : Coordinate.t R) (event : PointerEvent R) :
  let a := Ratan2 (pageY event - rect_top event + - Coordinate.y c)
                  (pageX event - rect_left event + - Coordinate.x c) in
  pointer_angle c event =
  if Rle_dec (- (PI / 2)) a then a + PI / 2 else a + PI / 2 + 2 * PI.
Proof.
  cbv zeta. pose proof PI_RGT_0 as P.
  unfold pointer_angle, Coordinate.translate. cbv zeta.
  cbn [Coordinate.x Coordinate.y]. real_ops.
  set (a := Ratan2 _ _). pose proof (Ratan2_bounds _ _ : - PI < a <= PI) as B.
  unfold Rltb. destruct (Rlt_dec a 0) as [N|N].
  - destruct (Rle_dec (- (PI / 2)) a) as [Q|Q].
    + rewrite (Rrem_floor _ (2 * PI) 1) by lra. lra.
    + rewrite (Rrem_floor _ (2 * PI) 0) by lra. lra.
  - destruct (Rle_dec (- (PI / 2)) a) as [Q|Q]; [|lra].
    rewrite (Rrem_floor _ (2 * PI) 0) by lra. lra.
Qed.

Lemma pointer_angle_bounds (c : Coordinate.t R) (event : PointerEvent R) :
  0 <= pointer_angle c event < 2 * PI.
Proof.
  pose proof PI_RGT_0 as P.
  pose proof (pointer_angle_atan2 c event) as E. cbv zeta in E.
  pose proof (Ratan2_bounds
                (pageY event - rect_top event + - Coordinate.y c)
                (pageX event - rect_left event + - Coordinate.x c)) as B.
  rewrite E. destruct (Rle_dec _ _); lra.
Qed.

(** X4. The angle the handler computes for a pointer lies in [0, 2 PI),
    wherever the pointer and the center are; it is the angle of
    [Math.atan2] plus a quarter turn, less a whole turn when that is
    2 PI or more. *)
Theorem pointer_angle_in_one_turn (c : Coordinate.t R) (event : PointerEvent R) :
  let a := Ratan2 (pageY event - rect_top event + - Coordinate.y c)
                  (pageX event - rect_left event + - Coordinate.x c) in
  0 <= pointer_angle c event < 2 * PI /\
  - PI < a <= PI /\
  (pointer_angle c event = a + PI / 2 \/
   pointer_angle c event = a + PI / 2 + 2 * PI) /\
  (pointer_angle c event = a + PI / 2 <-> - (PI / 2) <= a).
Proof.
  cbv zeta. pose proof PI_RGT_0 as P.
  pose proof (pointer_angle_atan2 c event) as E. cbv zeta in E.
  split; [apply pointer_angle_bounds|]. split; [apply Ratan2_bounds|].
  rewrite E. destruct (Rle_dec _ _) as [Q|Q]; split.
  - left; reflexivity.
  - split; [intros _; exact Q|reflexivity].
  - right; reflexivity.
  - split; [intros A; lra|intros A; lra].
Qed.

(** X5. The handler measures the pointer's angle clockwise from 12
    o'clock: a pointer straight above the center is at the angle 0, one to
    its right at PI / 2, one below it at PI and one to its left at
    3 PI / 2, at any distance and for any position of the canvas on the
    page. *)
Theorem pointer_angle_compass (c : Coordinate.t R) (l t r : R) :
  0 < r ->
  let cx := Coordinate.x c in
  let cy := Coordinate.y c in
  let at_ (dx dy : R) :=
    {| pageX := l + cx + dx; pageY := t + cy + dy;
       rect_left := l; rect_top := t |} in
  pointer_angle c (at_ 0 (- r)) = 0 /\
  pointer_angle c (at_ r 0) = PI / 2 /\
  pointer_angle c (at_ 0 r) = PI /\
  pointer_angle c (at_ (- r) 0) = 3 / 2 * PI.
Proof.
  intros R0. cbv zeta. pose proof PI_RGT_0 as P.
  assert (A : forall dx dy,
             Ratan2 (t + Coordinate.y c + dy - t + - Coordinate.y c)
                    (l + Coordinate.x c + dx - l + - Coordinate.x c) =
             Ratan2 dy dx).
  { intros dx dy. f_equal; lra. }
  repeat split; rewrite pointer_angle_atan2; cbv zeta;
    cbn [pageX pageY rect_left rect_top]; rewrite A; unfold Ratan2.
  - destruct (Rlt_dec 0 0); [lra|]. destruct (Rlt_dec 0 0); [lra|].
    destruct (Rlt_dec 0 (- r)); [lra|]. destruct (Rlt_dec (- r) 0); [|lra].
    destruct (Rle_dec _ _); lra.
  - destruct (Rlt_dec 0 r); [|lra].
    replace (0 / r) with 0 by (field; lra). rewrite atan_0.
    destruct (Rle_dec _ _); lra.
  - destruct (Rlt_dec 0 0); [lra|]. destruct (Rlt_dec 0 0); [lra|].
    destruct (Rlt_dec 0 r); [|lra].
    destruct (Rle_dec _ _); lra.
  - destruct (Rlt_dec 0 (- r)); [lra|]. destruct (Rlt_dec (- r) 0); [|lra].
    destruct (Rle_dec 0 0); [|lra].
    replace (0 / - r) with 0 by (field; lra). rewrite atan_0.
    destruct (Rle_dec _ _); lra.
Qed.

(** Four pointers one unit from the center (150, 150) of a canvas that
    starts at (10, 20) on the page. *)
Lemma pointer_angle_compass_at_one_unit :
  let c := Coordinate.mk 150 150 in
  let at_ (dx dy : R) :=
    {| pageX := 10 + 150 + dx; pageY := 20 + 150 + dy;
       rect_left := 10; rect_top := 20 |} in
  pointer_angle c (at_ 0 (- 1)) = 0 /\
  pointer_angle c (at_ 1 0) = PI / 2 /\
  pointer_angle c (at_ 0 1) = PI /\
  pointer_angle c (at_ (- 1) 0) = 3 / 2 * PI.
Proof.
  apply (pointer_angle_compass (Coordinate.mk 150 150) 10 20 1). lra.
Defined.

(** *** The origin of a drag *)

Lemma radians_to_seconds_bounds d :
  - (2 * PI) < d < 2 * PI -> -3600 < radians_to_seconds d < 3600.
Proof.
  intros B. pose proof PI_RGT_0 as P.
  assert (radians_to_seconds d = d / PI * 1800) as E.
  { unfold radians_to_seconds. real_ops. field. lra. }
  assert (d = d / PI * PI) as F by (field; lra).
  rewrite E. set (q := d / PI) in *. clearbody q. subst d. split; nra.
Qed.

Lemma hours_to_add_small x : -3600 < x -> (hours_to_add x <= 1)%nat.
Proof.
  intros L. unfold hours_to_add. destruct (Rle_dec 0 x); [lia|].
  rewrite (Zceil_eq 1) by lra. cbn. lia.
Qed.

Lemma drag_ok_same (st st' : TimerCanvas R) :
  drag_starting_angle st' = drag_starting_angle st ->
  drag_starting_remaining_seconds st' = drag_starting_remaining_seconds st ->
  drag_ok st -> drag_ok st'.
Proof. unfold drag_ok. intros -> ->. tauto. Qed.

Lemma render_drag_ok now (st : TimerCanvas R) :
  drag_ok st -> drag_ok (fst (render now st)).
Proof.
  pose proof (render_keeps now st) as K. cbv zeta in K.
  apply drag_ok_same; tauto.
Qed.

Lemma animate_clock_drag_ok (st : TimerCanvas R) (w : Browser R) :
  drag_ok st -> drag_ok (fst (animate_clock st w)).
Proof.
  destruct (animate_clock_state st w) as [A _]. rewrite A.
  apply drag_ok_same; reflexivity.
Qed.

Lemma mousemove_handler_drag_ok fuel now event (st : TimerCanvas R) w p :
  time_ok st -> drag_ok st ->
  mousemove_handler fuel now event st w = Ok p -> drag_ok (fst p).
Proof.
  intros T D. unfold mousemove_handler. cbv zeta.
  set (step := match drag_starting_angle st with Some _ => _ | None => _ end).
  assert (S1 : forall st1, step = Ok st1 -> drag_ok st1).
  { intros st1. unfold step. unfold drag_ok in D.
    destruct (drag_starting_angle st) eqn:A,
             (drag_starting_remaining_seconds st) eqn:B;
      try contradiction; intros E.
    - apply set_remaining_seconds_keeps in E.
      destruct E as (_ & Ea & Es & _).
      unfold drag_ok. rewrite Ea, Es, A, B. exact D.
    - inversion E; subst. unfold drag_ok. cbn.
      split; [apply pointer_angle_bounds|apply T]. }
  destruct step as [st1| |]; cbn [bind]; try discriminate.
  specialize (S1 st1 eq_refl).
  pose proof (render_drag_ok now st1 S1) as K.
  destruct (render now st1) as [st2 ops]. cbn [fst] in K.
  intros P. inversion P; subst. apply animate_clock_drag_ok, K.
Qed.

Lemma dispatch_drag_ok m fuel e (st : TimerCanvas R) (w : Browser R) p :
  time_ok st -> drag_ok st ->
  dispatch m fuel e st w = Ok p -> drag_ok (fst p).
Proof.
  intros T D. destruct e; cbn [dispatch].
  - destruct m; intros P; inversion P; subst; [|exact D].
    unfold setup. pose proof (render_drag_ok now st D) as K.
    destruct (render now st) as [st1 ops]. apply animate_clock_drag_ok, K.
  - destruct (decide _); [|intros P; inversion P; subst; exact D].
    destruct fuel as [|fuel].
    + unfold interval_callback, set_remaining_seconds. cbv zeta.
      destruct (render now st) as [st1 ops1].
      destruct (_ <? _)%num; cbn; discriminate.
    + rewrite interval_callback_real. cbv zeta.
      pose proof (render_drag_ok now st D) as K.
      destruct (Rlt_dec _ 0) as [L|L].
      * destruct m; intros P; inversion P; subst; cbn [fst];
          [exact K|apply render_drag_ok, K].
      * intros P; inversion P; subst. exact K.
  - intros P; inversion P; subst. exact D.
  - destruct (mousemove_on w); [|intros P; inversion P; subst; exact D].
    apply mousemove_handler_drag_ok; assumption.
  - intros P; inversion P; subst.
    destruct (listening w); [exact I|exact D].
  - intros P; inversion P; subst. exact D.
  - destruct (touchmove_on w); [|intros P; inversion P; subst; exact D].
    destruct touches as [|event ?]; cbn; [discriminate|].
    apply mousemove_handler_drag_ok; assumption.
  - intros P; inversion P; subst.
    destruct (listening w); [exact I|exact D].
  - destruct (listening w); [|intros P; inversion P; subst; exact D].
    pose proof (setup_resolution_keeps st) as K. cbv zeta in K.
    destruct (setup_resolution st) as [st1 ops]. cbn [fst] in K.
    intros P; inversion P; subst. cbn [fst].
    eapply drag_ok_same; [| |exact D]; tauto.
  - intros P; inversion P; subst. exact D.
Qed.

Lemma reachable_time_and_drag_ok m (p : TimerCanvas R * Browser R) :
  reachable m p -> time_ok (fst p) /\ drag_ok (fst p).
Proof.
  induction 1 as [context now a b c d p B | fuel e st w p R [T D] E].
  - split; [eapply boot_time_ok, B|].
    unfold boot, constructor in B. destruct context; cbn [bind] in B;
      [|discriminate].
    destruct m; inversion B; subst; [exact I|].
    unfold setup. set (st0 := Build_TimerCanvas _ _ _ _ _ _ _ _ _ _ _ _ _).
    pose proof (render_drag_ok now st0 I) as K.
    destruct (render now st0) as [st1 ops]. apply animate_clock_drag_ok, K.
  - split; [eapply dispatch_time_ok; [exact T|exact E]|].
    eapply dispatch_drag_ok; [exact T|exact D|exact E].
Qed.

(** X6. In every state the engine can reach, the two fields of the drag
    origin are set together or not at all, the origin's angle lies in
    [0, 2 PI) and its seconds are not negative. A move therefore asks
    [set_remaining_seconds] for more than -3600 seconds, its loop adds at
    most one hour, and every callback returns when the loop is given two
    rounds (a touch event without touches throws instead). *)
Theorem drag_origin_invariant m (p : TimerCanvas R * Browser R) :
  reachable m p ->
  drag_ok (fst p) /\
  (forall a s event,
      drag_starting_angle (fst p) = Some a ->
      drag_starting_remaining_seconds (fst p) = Some s ->
      -3600 < s + radians_to_seconds (a - pointer_angle (center (fst p)) event)) /\
  (forall e fuel,
      (exists p', dispatch m (S (S fuel)) e (fst p) (snd p) = Ok p') \/
      dispatch m (S (S fuel)) e (fst p) (snd p) = Throw TypeError).
Proof.
  intros Hr. destruct (reachable_time_and_drag_ok m p Hr) as [T D].
  destruct p as [st w]. cbn [fst snd] in *.
  assert (B : forall a s event,
             drag_starting_angle st = Some a ->
             drag_starting_remaining_seconds st = Some s ->
             -3600 < s + radians_to_seconds (a - pointer_angle (center st) event)).
  { intros a s event A S0. unfold drag_ok in D. rewrite A, S0 in D.
    pose proof (pointer_angle_bounds (center st) event) as Pb.
    pose proof (radians_to_seconds_bounds
                  (a - pointer_angle (center st) event)) as Rb.
    lra. }
  split; [exact D|]. split; [exact B|].
  intros e fuel.
  assert (MM : forall now event,
             exists p', mousemove_handler (S (S fuel)) now event st w = Ok p').
  { intros now event.
    destruct (drag_starting_angle st) as [a|] eqn:A,
             (drag_starting_remaining_seconds st) as [s0|] eqn:S0.
    2-4: edestruct (mousemove_handler_result (S (S fuel)) now event st)
           as (p' & E & _); [rewrite A, ?S0; reflexivity|exists p'; exact E].
    edestruct (mousemove_handler_result (S (S fuel)) now event st)
      as (p' & E & _).
    - rewrite A, S0. apply set_remaining_seconds_real.
      pose proof (hours_to_add_small _ (B a s0 event eq_refl eq_refl)) as Hs.
      real_ops. lia.
    - exists p'; exact E. }
  destruct e; cbn [dispatch].
  - left. destruct m; eexists; reflexivity.
  - left. destruct (decide _); [|eexists; reflexivity].
    rewrite interval_callback_real. cbv zeta.
    destruct (Rlt_dec _ 0); [destruct m|]; eexists; reflexivity.
  - left. eexists; reflexivity.
  - left. destruct (mousemove_on w); [apply MM|eexists; reflexivity].
  - left. eexists; reflexivity.
  - left. eexists; reflexivity.
  - destruct touches as [|event touches].
    + destruct (touchmove_on w); [right; reflexivity|left; eexists; reflexivity].
    + left. destruct (touchmove_on w); [apply MM|eexists; reflexivity].
  - left. eexists; reflexivity.
  - left. destruct (listening w); [destruct (setup_resolution st)|];
      eexists; reflexivity.
  - left. eexists; reflexivity.
Qed.

(** A state X6 speaks of: the wrapper just constructed. *)
Lemma drag_origin_invariant_booted :
  let p := setup 0 new_timer fresh_browser in
  drag_ok (fst p) /\
  (forall a s event,
      drag_starting_angle (fst p) = Some a ->
      drag_starting_remaining_seconds (fst p) = Some s ->
      -3600 < s + radians_to_seconds (a - pointer_angle (center (fst p)) event)) /\
  (forall e fuel,
      (exists p', dispatch Wrapper (S (S fuel)) e (fst p) (snd p) = Ok p') \/
      dispatch Wrapper (S (S fuel)) e (fst p) (snd p) = Throw TypeError).
Proof.
  apply (drag_origin_invariant Wrapper).
  apply (reach_boot Wrapper true 0 300 150 300 150). reflexivity.
Defined.

(** *** Rendering again *)

(** X7. A render that follows a render, with the client size unchanged,
    moves [prev_render_ms] to its own instant and changes nothing else of
    the state; it clears nothing and draws no numerals. *)
Theorem render_again_only_stamps (now now' : R) (st : TimerCanvas R) :
  let st1 := fst (render now st) in
  fst (render now' st1) = with_prev_render_ms now' st1 /\
  prev_render_ms st1 = now /\
  clears (snd (render now' st1)) = false /\
  labels (snd (render now' st1)) = [].
Proof.
  cbv zeta.
  destruct (render_spec now' (fst (render now st))) as (F' & L' & C').
  cbv zeta in F'.
  rewrite F', L', C', finds_resize_after_render.
  destruct (render_spec now st) as (F & _). cbv zeta in F. rewrite F.
  repeat split; reflexivity.
Qed.

(** X12. On a canvas whose center is the middle of a square of side [h],
    the white disc a render starts with reaches further out than the
    wedge and both ends of every mark, and not as far as the anchors of
    the numerals: 7/20 h < 2/5 h < 81/200 h < 9/20 h. *)
Theorem background_disc_spares_numerals (now : R) (st : TimerCanvas R) :
  finds_resize st = false ->
  center st = Coordinate.mk (height st / 2) (height st / 2) ->
  0 < height st ->
  let h := height st in
  nth 1 (snd (render now st)) Fill =
    Arc (h / 2) (h / 2) (h / 2 * (81 / 100)) 0 (2 * PI) /\
  nth 2 (render_fill st) Fill =
    Arc (h / 2) (h / 2) (h / 2 * (1 - 2 / 10))
        (3 / 2 * PI - time_radians st) (3 / 2 * PI) /\
  (forall full i deg,
      In (MoveTo (h / 2 + 2 / 5 * h * cos deg) (h / 2 + 2 / 5 * h * sin deg))
         (render_mark full h i deg) /\
      In (LineTo (h / 2 + 7 / 20 * h * cos deg) (h / 2 + 7 / 20 * h * sin deg))
         (render_mark full h i deg) /\
      (full && (i mod 5 =? 0)%Z = true ->
       In (FillText i (h / 2 + 9 / 20 * h * cos deg)
                      (h / 2 + 9 / 20 * h * sin deg))
          (render_mark full h i deg))) /\
  7 / 20 * h < 2 / 5 * h /\
  2 / 5 * h = h / 2 * (1 - 2 / 10) /\
  h / 2 * (1 - 2 / 10) < h / 2 * (81 / 100) /\
  h / 2 * (81 / 100) < 9 / 20 * h.
Proof.
  intros E C Hh. cbv zeta.
  split; [|split; [|split]].
  - rewrite render_ops_without_resize by exact E. rewrite C. reflexivity.
  - unfold render_fill. cbv zeta. rewrite C. reflexivity.
  - intros full i deg.
    assert (M : render_mark full (height st) i deg =
                (if full && (i mod 5 =? 0)%Z
                 then [FillText i (height st / 2 + 9 / 20 * height st * cos deg)
                         (height st / 2 + 9 / 20 * height st * sin deg)]
                 else []) ++
                [BeginPath;
                 LineWidth (if (i mod 5 =? 0)%Z then 5 else 1);
                 MoveTo (height st / 2 + 2 / 5 * height st * cos deg)
                        (height st / 2 + 2 / 5 * height st * sin deg);
                 LineTo (height st / 2 + 7 / 20 * height st * cos deg)
                        (height st / 2 + 7 / 20 * height st * sin deg);
                 Stroke; ClosePath]).
    { unfold render_mark, Coordinate.expand_to, Coordinate.scale,
        Coordinate.translate, frac.
      cbv zeta. cbn [Coordinate.x Coordinate.y]. real_ops.
      rewrite Z.div_mul by lia.
      destruct (full && (i mod 5 =? 0)%Z); cbn [app];
        repeat (f_equal; try field). }
    rewrite M. split; [|split].
    + apply in_or_app. right. cbn. tauto.
    + apply in_or_app. right. cbn. tauto.
    + intros F. rewrite F. apply in_or_app. left. cbn. tauto.
  - repeat split; lra.
Qed.

(** The square canvas of side 300, centered at (150, 150). *)
Lemma background_disc_spares_numerals_on_square :
  let h := height (square_timer 60) in
  nth 1 (snd (render 200 (square_timer 60))) Fill =
    Arc (h / 2) (h / 2) (h / 2 * (81 / 100)) 0 (2 * PI) /\
  nth 2 (render_fill (square_timer 60)) Fill =
    Arc (h / 2) (h / 2) (h / 2 * (1 - 2 / 10))
        (3 / 2 * PI - time_radians (square_timer 60)) (3 / 2 * PI) /\
  (forall full i deg,
      In (MoveTo (h / 2 + 2 / 5 * h * cos deg) (h / 2 + 2 / 5 * h * sin deg))
         (render_mark full h i deg) /\
      In (LineTo (h / 2 + 7 / 20 * h * cos deg) (h / 2 + 7 / 20 * h * sin deg))
         (render_mark full h i deg) /\
      (full && (i mod 5 =? 0)%Z = true ->
       In (FillText i (h / 2 + 9 / 20 * h * cos deg)
                      (h / 2 + 9 / 20 * h * sin deg))
          (render_mark full h i deg))) /\
  7 / 20 * h < 2 / 5 * h /\
  2 / 5 * h = h / 2 * (1 - 2 / 10) /\
  h / 2 * (1 - 2 / 10) < h / 2 * (81 / 100) /\
  h / 2 * (81 / 100) < 9 / 20 * h.
Proof.
  apply (background_disc_spares_numerals 200 (square_timer 60)).
  - unfold finds_resize. cbn. rewrite Rneqb_eq. reflexivity.
  - cbn. f_equal; lra.
  - cbn. lra.
Defined.

(** *** A countdown *)

Lemma interval_callback_clock_running m fuel (c : TickClock (num := R))
    (st : TimerCanvas R) (w : Browser R) :
  0 <= remaining_seconds st - (tick_start c - prev_render_ms st) / 1000 ->
  interval_callback_clock m (S fuel) c st w =
  Ok (with_time
        (remaining_seconds st - (tick_start c - prev_render_ms st) / 1000)
        (seconds_to_radians
           (remaining_seconds st - (tick_start c - prev_render_ms st) / 1000))
        (fst (render (render_end c) st)),
      draw (snd (render (render_end c) st)) w).
Proof.
  intros L. unfold interval_callback_clock. cbv zeta.
  pose proof (render_keeps (render_end c) st) as K. cbv zeta in K.
  destruct (render (render_end c) st) as [st1 ops1]. cbn [fst snd] in *.
  destruct K as (Kr & _).
  rewrite Kr. real_ops. rewrite Rltb_ge by exact L.
  rewrite set_remaining_seconds_real
    by (rewrite hours_to_add_nonneg by exact L; lia).
  rewrite wrap_hours_nonneg by exact L. reflexivity.
Qed.

Lemma waited_nonneg r0 ticks : in_order r0 ticks -> 0 <= waited r0 ticks.
Proof.
  revert r0. induction ticks as [|c ticks IH]; intros r0 O; cbn; [lra|].
  destruct O as (A & B & O). apply IH in O. lra.
Qed.

Lemma waited_and_rendering r0 ticks :
  waited r0 ticks + rendering ticks = last_render r0 ticks - r0.
Proof.
  revert r0. induction ticks as [|c ticks IH]; intros r0; cbn; [lra|].
  specialize (IH (render_end c)). lra.
Qed.

(** X9. The countdown counts the time between renders, not the time
    renders take. A tick reads the clock when it starts and again at the
    end of its render. While the interval is active and the time does not
    run out, a run of ticks takes off the remaining seconds the sum of the
    times from the end of one render to the start of the next tick, leaves
    the end of the last render in [prev_render_ms] and leaves the interval
    active; so the countdown is behind the clock by the time its renders
    took. With every tick read at one instant this is the callback the
    other properties speak of. *)
Theorem countdown_skips_render_time m fuel id
    (ticks : list (TickClock (num := R)))
    (st : TimerCanvas R) (w : Browser R) :
  id ∈ timers w ->
  in_order (prev_render_ms st) ticks ->
  waited (prev_render_ms st) ticks / 1000 <= remaining_seconds st ->
  (exists p,
      run_ticks m (S fuel) id ticks st w = Ok p /\
      remaining_seconds (fst p) =
        remaining_seconds st - waited (prev_render_ms st) ticks / 1000 /\
      remaining_seconds (fst p) =
        remaining_seconds st
        - (last_render (prev_render_ms st) ticks - prev_render_ms st) / 1000
        + rendering ticks / 1000 /\
      prev_render_ms (fst p) = last_render (prev_render_ms st) ticks /\
      timers (snd p) = timers w) /\
  (forall now,
      interval_callback m fuel now st w =
      interval_callback_clock m fuel
        {| tick_start := now; render_end := now; zero_render_end := now |}
        st w).
Proof.
  intros Hid O B. split; [|reflexivity].
  revert st w Hid O B. induction ticks as [|c ticks IH]; intros st w Hid O B.
  - exists (st, w). cbn. repeat split; lra.
  - destruct O as (L1 & L2 & O). cbn [waited] in B.
    pose proof (waited_nonneg _ _ O) as Wn.
    cbn [run_ticks].
    destruct (decide (id ∈ timers w)) as [_|N]; [|contradiction].
    rewrite interval_callback_clock_running by lra. cbn [bind fst snd].
    destruct (render_spec (render_end c) st) as (F & _). cbv zeta in F.
    set (st' := with_time _ _ _).
    assert (prev_render_ms st' = render_end c) as P
      by (unfold st'; rewrite F; reflexivity).
    assert (remaining_seconds st' =
            remaining_seconds st - (tick_start c - prev_render_ms st) / 1000)
      as Rm by reflexivity.
    destruct (IH st' (draw (snd (render (render_end c) st)) w))
      as (p & E & Er & _ & Ep & Et).
    + exact Hid.
    + rewrite P. exact O.
    + rewrite P, Rm. lra.
    + exists p. split; [exact E|]. rewrite Er, Ep, Et, P, Rm.
      pose proof (waited_and_rendering (render_end c) ticks) as WR.
      cbn [waited rendering last_render].
      repeat split; try reflexivity; lra.
Qed.

(** Three ticks of uneven rhythm whose renders take 3, 2 and 1 ms, in the
    first 601 ms of two minutes: 595 ms are counted. *)
Lemma countdown_skips_render_time_three_ticks :
  let ticks :=
    [ {| tick_start := 200; render_end := 203; zero_render_end := 203 |};
      {| tick_start := 410; render_end := 412; zero_render_end := 412 |};
      {| tick_start := 600; render_end := 601; zero_render_end := 601 |} ] in
  exists p,
    run_ticks Wrapper 1 1 ticks (square_timer 120) ticking = Ok p /\
    remaining_seconds (fst p) = 120 - 595 / 1000 /\
    prev_render_ms (fst p) = 601 /\
    timers (snd p) = {[ 1%nat ]}.
Proof.
  cbv zeta.
  destruct (countdown_skips_render_time Wrapper 0 1%nat
              [ {| tick_start := 200; render_end := 203; zero_render_end := 203 |};
                {| tick_start := 410; render_end := 412; zero_render_end := 412 |};
                {| tick_start := 600; render_end := 601; zero_render_end := 601 |} ]
              (square_timer 120) ticking)
    as ((p & E & Er & _ & Ep & Et) & _).
  - cbn. apply elem_of_singleton. reflexivity.
  - cbn. lra.
  - cbn. lra.
  - exists p. split; [exact E|]. rewrite Er, Ep, Et. cbn.
    repeat split; try reflexivity; lra.
Defined.

End Extras.

Section ExtrasAnyArithmetic.
Context {num : Type} `{Number num} `{MathLib num}.
Local Open Scope num_scope.

(** X8. [setup_resolution] is idempotent on the state: a second call
    straight after the first leaves the state as the first left it. When
    the first call acts, the canvas is square with the client width as its
    side (the height is set to the client width too), the center is its
    middle and a full render is due; the second call then clears the
    surface again exactly when the client width differs from itself or
    from the client height. When the first call does not act, neither
    does the second. *)
Theorem setup_resolution_idempotent (st : TimerCanvas num) :
  let st1 := fst (setup_resolution st) in
  let cw := clientWidth st in
  fst (setup_resolution st1) = st1 /\
  (if clears (snd (setup_resolution st))
   then width st1 = cw /\ height st1 = cw /\
        center st1 = Coordinate.mk (cw / lit 2) (cw / lit 2) /\
        needs_full_render st1 = true /\
        snd (setup_resolution st) = [ClearRect (lit 0) (lit 0) cw cw] /\
        clears (snd (setup_resolution st1)) =
          neq cw cw || neq cw (clientHeight st)
   else st1 = st /\ snd (setup_resolution st) = [] /\
        clears (snd (setup_resolution st1)) = false).
Proof.
  cbv zeta.
  destruct (neq (width st) (clientWidth st) || neq (height st) (clientHeight st))
    eqn:E.
  - assert (S1 : setup_resolution st =
                 (with_resolution (clientWidth st) (clientWidth st)
                    (Coordinate.mk (clientWidth st / lit 2)
                       (clientWidth st / lit 2)) st,
                  [ClearRect (lit 0) (lit 0) (clientWidth st) (clientWidth st)]))
      by (unfold setup_resolution; rewrite E; reflexivity).
    rewrite S1. cbn [fst snd clears existsb orb].
    unfold setup_resolution.
    cbn [width height clientWidth clientHeight with_resolution].
    destruct (neq (clientWidth st) (clientWidth st) ||
              neq (clientWidth st) (clientHeight st));
      repeat split; reflexivity.
  - assert (S1 : setup_resolution st = (st, []))
      by (unfold setup_resolution; rewrite E; reflexivity).
    rewrite S1. cbn [fst snd clears existsb]. rewrite S1.
    repeat split; reflexivity.
Qed.

(** X10. A move event restarts the animation: where at most one interval
    was active, the one [animation_timer] names, the handler leaves
    exactly one active, a fresh one, also when the countdown had ended and
    none was left. It has rendered at its own instant, and no full render
    is due after it. *)
Theorem mousemove_handler_restarts_animation fuel now event
    (st : TimerCanvas num) (w : Browser num) p :
  one_schedule (st, w) ->
  mousemove_handler fuel now event st w = Ok p ->
  timers (snd p) = {[ next_timer w ]} /\
  animation_timer (fst p) = Some (next_timer w) /\
  next_timer (snd p) = S (next_timer w) /\
  prev_render_ms (fst p) = now /\
  needs_full_render (fst p) = false.
Proof.
  intros I. unfold mousemove_handler. cbv zeta.
  set (step := match drag_starting_angle st with Some _ => _ | None => _ end).
  assert (S1 : forall st1, step = Ok st1 -> animation_timer st1 = animation_timer st).
  { intros st1. unfold step.
    destruct (drag_starting_angle st), (drag_starting_remaining_seconds st);
      intros E; try (inversion E; subst; reflexivity).
    apply set_remaining_seconds_keeps in E. tauto. }
  destruct step as [st1| |]; cbn [bind]; try discriminate.
  specialize (S1 st1 eq_refl).
  pose proof (render_keeps now st1) as K. cbv zeta in K.
  destruct (render_spec now st1) as (F & _). cbv zeta in F.
  destruct (render now st1) as [st2 ops]. cbn [fst] in K, F.
  intros P. inversion P; subst p. clear P.
  assert (I2 : one_schedule (st2, draw ops w)).
  { apply (one_schedule_same st st2 w);
      [rewrite <- S1; tauto|reflexivity|reflexivity|exact I]. }
  destruct (animate_clock_schedules st2 (draw ops w) I2) as (T & A & N).
  destruct (animate_clock_state st2 (draw ops w)) as [Q _].
  split; [exact T|]. split; [exact A|]. split; [exact N|].
  rewrite Q. cbn [prev_render_ms needs_full_render with_animation_timer].
  rewrite F. split; reflexivity.
Qed.

(** X11. Coming to exist. Without a 2-d context the constructor throws.
    With one, the wrapper has, straight after its construction, drawn the
    twelve numerals, attached its listeners and started interval 1, with
    two minutes on the clock and no drag under way. The custom element has
    then drawn nothing, attached nothing and started nothing; all that
    happens when it is connected. *)
Theorem boot_draws_face_and_starts m now now' w h cw ch fuel :
  boot m false now w h cw ch = Throw Error_no_2d_context /\
  (exists p,
      boot Wrapper true now w h cw ch = Ok p /\
      labels (drawn (snd p)) = minute_labels /\
      timers (snd p) = {[ 1 ]} /\
      animation_timer (fst p) = Some 1 /\
      listening (snd p) = true /\
      needs_full_render (fst p) = false /\
      remaining_seconds (fst p) = lit 2 * lit 60 /\
      time_radians (fst p) = seconds_to_radians (lit 2 * lit 60) /\
      drag_starting_angle (fst p) = None /\
      drag_starting_remaining_seconds (fst p) = None) /\
  (exists p0,
      boot CustomElement true now w h cw ch = Ok p0 /\
      drawn (snd p0) = [] /\ timers (snd p0) = ∅ /\
      listening (snd p0) = false /\ needs_full_render (fst p0) = true /\
      exists p,
        dispatch CustomElement fuel (Connected now') (fst p0) (snd p0) = Ok p /\
        labels (drawn (snd p)) = minute_labels /\
        timers (snd p) = {[ 1 ]} /\
        animation_timer (fst p) = Some 1 /\
        listening (snd p) = true /\
        needs_full_render (fst p) = false).
Proof.
  assert (G : forall t (st0 : TimerCanvas num),
             needs_full_render st0 = true -> animation_timer st0 = None ->
             let p := setup t st0 fresh_browser in
             labels (drawn (snd p)) = minute_labels /\
             timers (snd p) = {[ 1 ]} /\
             animation_timer (fst p) = Some 1 /\
             listening (snd p) = true /\
             needs_full_render (fst p) = false /\
             remaining_seconds (fst p) = remaining_seconds st0 /\
             time_radians (fst p) = time_radians st0 /\
             drag_starting_angle (fst p) = drag_starting_angle st0 /\
             drag_starting_remaining_seconds (fst p) =
               drag_starting_remaining_seconds st0).
  { intros t st0 Fl An. cbv zeta. unfold setup.
    pose proof (render_keeps t st0) as K. cbv zeta in K.
    destruct (render_spec t st0) as (_ & L & _).
    destruct (render t st0) as [st1 ops]. cbn [fst snd] in K, L.
    destruct K as (Kr & Kt & Ka & Kd & Ks & Kf).
    rewrite Fl, orb_true_r in L.
    unfold animate_clock, setInterval, clearTimeout. rewrite Ka, An.
    cbn [fst snd drawn draw handlers with_listeners with_timers fresh_browser
         app timers listening next_timer animation_timer with_animation_timer
         needs_full_render remaining_seconds time_radians drag_starting_angle
         drag_starting_remaining_seconds].
    rewrite L, Kr, Kt, Kd, Ks, Kf.
    repeat split; reflexivity. }
  split; [destruct m; reflexivity|]. split.
  - unfold boot, constructor. cbn [bind].
    match goal with
    | |- exists p, Ok (setup ?t ?s ?b) = Ok p /\ _ =>
        exists (setup t s b); split; [reflexivity|];
        exact (G t s eq_refl eq_refl)
    end.
  - unfold boot, constructor. cbn [bind].
    eexists. split; [reflexivity|].
    cbn [fst snd drawn timers listening fresh_browser needs_full_render].
    do 4 (split; [reflexivity|]).
    cbn [dispatch].
    match goal with
    | |- exists p, Ok (setup ?t ?s ?b) = Ok p /\ _ =>
        exists (setup t s b); split; [reflexivity|];
        pose proof (G t s eq_refl eq_refl) as Gp; cbv zeta in Gp; tauto
    end.
Qed.

(** X13. Every gesture starts afresh. After the end of a gesture
    (mouseup), the first move of the next one (after mousedown) changes
    neither the remaining seconds nor the angle, whatever origin the
    gesture before had left: it records its own angle and the seconds
    there are as the new origin. The same holds for touchend, touchstart
    and a touch move. *)
Theorem gesture_starts_afresh m fuel now event touches
    (st : TimerCanvas num) (w : Browser num) :
  listening w = true ->
  (exists p,
      run m fuel [MouseUp; MouseDown; MouseMove now event] st w = Ok p /\
      remaining_seconds (fst p) = remaining_seconds st /\
      time_radians (fst p) = time_radians st /\
      drag_starting_angle (fst p) = Some (pointer_angle (center st) event) /\
      drag_starting_remaining_seconds (fst p) = Some (remaining_seconds st)) /\
  (exists p,
      run m fuel [TouchEnd; TouchStart; TouchMove now (event :: touches)] st w
        = Ok p /\
      remaining_seconds (fst p) = remaining_seconds st /\
      time_radians (fst p) = time_radians st /\
      drag_starting_angle (fst p) = Some (pointer_angle (center st) event) /\
      drag_starting_remaining_seconds (fst p) = Some (remaining_seconds st)).
Proof.
  intros Li. split.
  - cbn [run dispatch bind fst snd]. rewrite Li.
    cbn [mouseup mousedown fst snd listening mousemove_on with_listeners bind].
    rewrite Li. cbn [mousemove_on with_listeners].
    edestruct (mousemove_handler_result fuel now event (with_drag None None st))
      as (p & E & _ & Pr & Pt & Pa & Ps); [reflexivity|].
    exists p. rewrite E. cbn [bind run].
    destruct p as [st' w']. split; [reflexivity|].
    rewrite Pr, Pt, Pa, Ps. repeat split; reflexivity.
  - cbn [run dispatch bind fst snd]. rewrite Li.
    cbn [touchend touchstart fst snd listening touchmove_on with_listeners bind].
    rewrite Li. cbn [touchmove_on with_listeners touchmove_handler].
    edestruct (mousemove_handler_result fuel now event (with_drag None None st))
      as (p & E & _ & Pr & Pt & Pa & Ps); [reflexivity|].
    exists p. rewrite E. cbn [bind run].
    destruct p as [st' w']. split; [reflexivity|].
    rewrite Pr, Pt, Pa, Ps. repeat split; reflexivity.
Qed.

End ExtrasAnyArithmetic.

Section ExtrasInRealArithmetic.
Local Open Scope R_scope.

Lemma one_schedule_ticking secs : one_schedule (square_timer secs, ticking).
Proof.
  split; intros id; cbn.
  - intros Hid. apply elem_of_singleton in Hid. subst. reflexivity.
  - intros E. inversion E. lia.
Qed.

(** A move on the square canvas while interval 1 is active: interval 2
    replaces it. *)
Lemma mousemove_handler_restarts_animation_on_square :
  exists p,
    mousemove_handler 1 200 (pointer_at 151 150) (square_timer 60) ticking
      = Ok p /\
    timers (snd p) = {[ 2%nat ]} /\
    animation_timer (fst p) = Some 2%nat /\
    next_timer (snd p) = 3%nat /\
    prev_render_ms (fst p) = 200 /\
    needs_full_render (fst p) = false.
Proof.
  edestruct (mousemove_handler_result 1 200 (pointer_at 151 150)
               (square_timer 60)) with (w := ticking) as (p & E & _);
    [reflexivity|].
  exists p. split; [exact E|].
  apply (mousemove_handler_restarts_animation 1 200 (pointer_at 151 150)
           (square_timer 60) ticking p (one_schedule_ticking 60) E).
Defined.

(** A new gesture on a timer that still holds the origin of an old one. *)
Lemma gesture_starts_afresh_after_a_drag :
  let st := with_drag (Some 1) (Some 999) (square_timer 60) in
  let event := pointer_at 151 150 in
  (exists p,
      run Wrapper 1 [MouseUp; MouseDown; MouseMove 200 event] st ticking = Ok p /\
      remaining_seconds (fst p) = remaining_seconds st /\
      time_radians (fst p) = time_radians st /\
      drag_starting_angle (fst p) = Some (pointer_angle (center st) event) /\
      drag_starting_remaining_seconds (fst p) = Some (remaining_seconds st)) /\
  (exists p,
      run Wrapper 1 [TouchEnd; TouchStart; TouchMove 200 [event]] st ticking
        = Ok p /\
      remaining_seconds (fst p) = remaining_seconds st /\
      time_radians (fst p) = time_radians st /\
      drag_starting_angle (fst p) = Some (pointer_angle (center st) event) /\
      drag_starting_remaining_seconds (fst p) = Some (remaining_seconds st)).
Proof.
  apply (gesture_starts_afresh Wrapper 1 200 (pointer_at 151 150) []
           (with_drag (Some 1) (Some 999) (square_timer 60)) ticking).
  reflexivity.
Defined.

(** X14. A move of a drag whose origin holds an angle in [0, 2 PI) and
    seconds that are not negative leaves a time that is not negative and
    less than one hour above the origin's seconds: the origin's seconds
    plus the seconds of the angle dragged, with one hour added when that
    sum is below zero. The loop of [set_remaining_seconds] needs two
    rounds at most. *)
Theorem drag_adds_less_than_an_hour fuel now event
    (st : TimerCanvas R) (w : Browser R) (a s : R) :
  0 <= a < 2 * PI -> 0 <= s ->
  let x := s + radians_to_seconds (a - pointer_angle (center st) event) in
  exists p,
    mousemove_handler (S (S fuel)) now event
      (with_drag (Some a) (Some s) st) w = Ok p /\
    0 <= remaining_seconds (fst p) < s + 3600 /\
    - 3600 < x < s + 3600 /\
    remaining_seconds (fst p) = (if Rle_dec 0 x then x else x + 3600).
Proof.
  intros A S0. cbv zeta.
  pose proof (pointer_angle_bounds (center st) event) as Pb.
  pose proof (radians_to_seconds_bounds
                (a - pointer_angle (center st) event)) as Rb.
  set (x := s + radians_to_seconds (a - pointer_angle (center st) event)).
  assert (-3600 < x < s + 3600) as X by (unfold x; lra).
  edestruct (mousemove_handler_result (S (S fuel)) now event
               (with_drag (Some a) (Some s) st)) as (p & E & _ & Pr & _).
  - cbn [drag_starting_angle drag_starting_remaining_seconds with_drag center].
    apply set_remaining_seconds_real.
    pose proof (hours_to_add_small x (proj1 X)) as Hs.
    real_ops. fold x. lia.
  - exists p. split; [exact E|]. rewrite Pr.
    cbn [remaining_seconds with_time]. real_ops. fold x.
    split; [|split; [exact X|]].
    + destruct (Rle_dec 0 x) as [L|L].
      * rewrite wrap_hours_nonneg by exact L. lra.
      * destruct (wrap_hours_neg x) as (_ & _ & Bw); lra.
    + destruct (Rle_dec 0 x) as [L|L].
      * apply wrap_hours_nonneg, L.
      * destruct (wrap_hours_neg x) as (W & _ & _); [lra|].
        rewrite W, (Zceil_eq 1) by lra. lra.
Qed.

(** A drag that began at the angle 0 with one minute left. *)
Lemma drag_adds_less_than_an_hour_from_a_minute :
  let x := 60 + radians_to_seconds
                  (0 - pointer_angle (center (square_timer 60))
                         (pointer_at 151 150)) in
  exists p,
    mousemove_handler 2 200 (pointer_at 151 150)
      (with_drag (Some 0) (Some 60) (square_timer 60)) ticking = Ok p /\
    0 <= remaining_seconds (fst p) < 60 + 3600 /\
    - 3600 < x < 60 + 3600 /\
    remaining_seconds (fst p) = (if Rle_dec 0 x then x else x + 3600).
Proof.
  pose proof PI_RGT_0 as P.
  apply (drag_adds_less_than_an_hour 0 200 (pointer_at 151 150)
           (square_timer 60) ticking 0 60); lra.
Defined.

End ExtrasInRealArithmetic.
